(** * PyCurveBug: acquisition protocol, sample store and view transform

    A shallow embedding of [CurveTracerApp] from [PyCurveBug.py]: the
    frame parser inside [acquire], the per-variant sample buffers, the
    alternation toggle, and the zoom/pan operations ([on_mouse_scroll],
    [fit_to_window], [reset_view]) together with the fixed-scale viewport
    of [draw_plot].

    Conventions.
    - Python [int] is [Z]; a [bytearray] is a [list byte].
    - Python [float] is modelled by exact rationals [Q]: the literals
      [0.2], [1.2], [0.1], [1.0] stand for 1/5, 6/5, 1/10 and 1, and
      [+ - * /] carry no rounding.  Universal statements about zoom and
      pan are statements of exact arithmetic.  Module [FloatView] holds
      the same view computations in IEEE binary64, to evaluate the code
      on concrete data where rounding decides the outcome.
    - An exception caught by the [try/except] of [acquire] is [None] in
      the [option] monad; the instance attributes assigned before the
      exception keep their new values, as in Python. *)

From Stdlib Require Import ZArith List Bool Lia QArith Qminmax Lqa.
From Stdlib Require Import Strings.Byte.
From Stdlib Require Floats.PrimFloat Numbers.Cyclic.Int63.Uint63.
From Stdlib Require Floats.FloatOps Floats.SpecFloat Strings.String.
From Stdlib Require Import Qround.
Import ListNotations.
Local Open Scope Z_scope.

Set Implicit Arguments.

(** ** Module-level constants and helpers *)

Definition ADC_MAX : Z := 2800.
Definition ADC_ORIGIN : Z := 2048.

(** Python [min(lst)] / [max(lst)] on a non-empty list. *)
Definition py_min_list (x : Z) (t : list Z) : Z := fold_left Z.min t x.
Definition py_max_list (x : Z) (t : list Z) : Z := fold_left Z.max t x.

(** [list_min(lst)]: [min(lst) if lst else 0]. *)
Definition list_min (lst : list Z) : Z :=
  match lst with
  | [] => 0
  | x :: t => py_min_list x t
  end.

(** [list_max(lst)]: [max(lst) if lst else 0]. *)
Definition list_max (lst : list Z) : Z :=
  match lst with
  | [] => 0
  | x :: t => py_max_list x t
  end.

(** ** A small error monad for the body of [try: ... except Exception] *)

Definition bind {A B : Type} (m : option A) (k : A -> option B) : option B :=
  match m with
  | Some a => k a
  | None => None
  end.

Notation "x <- m ;; k" := (bind m (fun x => k))
  (at level 61, m at next level, right associativity).

(** A [for] loop (or comprehension) whose body may raise: the results are
    collected in order and the first exception aborts the loop. *)
Fixpoint for_each {A B : Type} (body : A -> option B) (xs : list A)
  : option (list B) :=
  match xs with
  | [] => Some []
  | x :: xs' =>
      y <- body x ;;
      ys <- for_each body xs' ;;
      Some (y :: ys)
  end.

(** ** Frame parsing (the "Parse data" part of [acquire]) *)

Module Codec.

(** The integer value of a byte, 0..255. *)
Definition byte_val (b : byte) : Z := Z.of_N (Byte.to_N b).

(** [data[i:j]] on a bytearray or list. *)
Definition slice {A : Type} (l : list A) (i j : nat) : list A :=
  firstn (j - i) (skipn i l).

(** [range(0, n, 2)]. *)
Definition range_step2 (n : nat) : list nat :=
  map (fun k => (2 * k)%nat) (seq 0 (Nat.div2 (n + 1))).

(** [struct.unpack('<H', chunk)[0]]: needs exactly two bytes, otherwise
    [struct.error] is raised. *)
Definition unpack_H (chunk : list byte) : option Z :=
  match chunk with
  | [lo; hi] => Some (byte_val lo + 256 * byte_val hi)
  | _ => None
  end.

(** One iteration of the parse loop:
    [val = struct.unpack('<H', data[i:i + 2])[0]; values.append(val & 0x0FFF)]. *)
Definition parse_word (data : list byte) (i : nat) : option Z :=
  val <- unpack_H (slice data i (i + 2)) ;;
  Some (Z.land val 0x0FFF).

(** [for i in range(0, len(data), 2): ...] *)
Definition parse_values (data : list byte) : option (list Z) :=
  for_each (parse_word data) (range_step2 (length data)).

(** [values[0::3]]: the elements at positions 0, 3, 6, ... *)
Fixpoint every_third {A : Type} (l : list A) : list A :=
  match l with
  | [] => []
  | x :: t =>
      x :: match t with
           | _ :: _ :: t' => every_third t'
           | _ => []
           end
  end.

(** [values[k::3]]. *)
Definition slice_from_step3 {A : Type} (k : nat) (l : list A) : list A :=
  every_third (skipn k l).

(** [[drive_voltage[i] - raw[i] for i in range(len(drive_voltage))]];
    an out-of-range index raises [IndexError]. *)
Definition current_series (drive_voltage raw : list Z) : option (list Z) :=
  for_each
    (fun i =>
       d <- nth_error drive_voltage i ;;
       r <- nth_error raw i ;;
       Some (d - r))
    (seq 0 (length drive_voltage)).

(** The five series computed from one frame. *)
Record Reading : Type := mkReading {
  r_drive_voltage : list Z;
  r_ch1_raw : list Z;
  r_ch2_raw : list Z;
  r_ch1_current : list Z;
  r_ch2_current : list Z
}.

(** How the decoding part of [acquire] ends. *)
Inductive decode_exit : Type :=
| Decoded (r : Reading)       (* falls through to "Store data" *)
| Bad_length                  (* [if len(data) != 2016: return False] *)
| Bad_count                   (* [if len(values) != 1008: return False] *)
| Decode_raised.              (* an exception reaches [except] *)

(** Lines "if len(data) != 2016" up to the two current comprehensions. *)
Definition decode (data : list byte) : decode_exit :=
  if negb (length data =? 2016)%nat then Bad_length
  else
    match parse_values data with
    | None => Decode_raised
    | Some values =>
        if negb (length values =? 1008)%nat then Bad_count
        else
          let drive_voltage := slice_from_step3 0 values in
          let ch1_raw := slice_from_step3 1 values in
          let ch2_raw := slice_from_step3 2 values in
          match current_series drive_voltage ch1_raw with
          | None => Decode_raised
          | Some ch1_current =>
              match current_series drive_voltage ch2_raw with
              | None => Decode_raised
              | Some ch2_current =>
                  Decoded (mkReading drive_voltage ch1_raw ch2_raw
                                     ch1_current ch2_current)
              end
          end
    end.

(** The masked little-endian word number [k] of a frame. *)
Definition sample_word (data : list byte) (k : nat) : Z :=
  Z.land (byte_val (nth (2 * k) data x00)
          + 256 * byte_val (nth (2 * k + 1) data x00)) 0x0FFF.

End Codec.

(** ** The serial port as seen by one call of [acquire] *)

(** One turn of the polling loop of [acquire]. *)
Inductive poll : Type :=
| Deadline                      (* [time.time() - start > 0.5] holds *)
| In_waiting (buf : list byte)  (* the input buffer holds [buf]:
                                   [in_waiting = len(buf)], [read(k)] gives
                                   its first [k] bytes *)
| Io_error.                     (* [in_waiting] or [read] raises *)

(** The behaviour of the device behind [self.serial] during one call: whether
    [reset_input_buffer()] and [write(command)] succeed, and what the polls
    after a given command byte see.  The list of polls is finite because the
    0.5 s deadline passes: after the last listed poll the deadline holds. *)
Record Port : Type := mkPort {
  reset_input_buffer_ok : bool;
  write_ok : byte -> bool;
  polls : byte -> list poll
}.

(** [while len(data) < 2016: ...] *)
Fixpoint read_loop (ps : list poll) (data : list byte) : option (list byte) :=
  if (length data <? 2016)%nat then
    match ps with
    | [] => Some data
    | Deadline :: _ => Some data
    | Io_error :: _ => None
    | In_waiting buf :: ps' =>
        if (0 <? length buf)%nat then
          read_loop ps'
            (data ++ firstn (Nat.min (length buf) (2016 - length data)) buf)
        else read_loop ps' data
    end
  else Some data.

(** [reset_input_buffer(); write(command); data = bytearray(); ...loop...] *)
Definition request_frame (port : Port) (command : byte) : option (list byte) :=
  if negb (reset_input_buffer_ok port) then None
  else if negb (write_ok port command) then None
  else read_loop (polls port command) [].

(** ** Application state: the attributes of [CurveTracerApp] used here *)

Record Serial : Type := mkSerial { is_open : bool }.

Record App : Type := mkApp {
  serial : option Serial;
  (* Data storage *)
  ch1_std : list Z;
  ch2_std : list Z;
  ch1_voltage_std : list Z;
  ch2_voltage_std : list Z;
  drive_voltage_std : list Z;
  ch1_weak : list Z;
  ch2_weak : list Z;
  ch1_voltage_weak : list Z;
  ch2_voltage_weak : list Z;
  drive_voltage_weak : list Z;
  ch1 : list Z;
  ch2 : list Z;
  ch1_voltage : list Z;
  ch2_voltage : list Z;
  drive_voltage : list Z;
  (* State *)
  frame_count : Z;
  paused : bool;
  single_channel : bool;
  auto_scale : bool;
  excitation_mode : Z;
  alt_use_weak : bool;
  last_mode_was_weak : bool;
  (* Pan/Zoom *)
  zoom_level : Q;
  pan_offset_x : Q;
  pan_offset_y : Q;
  (* [self.settings_window.active] *)
  settings_active : bool
}.

(** The state built by [__init__] (the connection attempt aside). *)
Definition init (s : option Serial) : App :=
  mkApp s [] [] [] [] [] [] [] [] [] [] [] [] [] [] []
        0 false false false 0 false false 1%Q 0%Q 0%Q false.

(** Attribute assignments.  The lists are never mutated in place (every
    acquisition builds new ones), so the sharing created by
    [self.ch1 = self.ch1_weak] is not observable and values suffice. *)

Definition set_alt_use_weak (b : bool) (a : App) : App :=
  mkApp (serial a)
    (ch1_std a) (ch2_std a) (ch1_voltage_std a) (ch2_voltage_std a)
    (drive_voltage_std a)
    (ch1_weak a) (ch2_weak a) (ch1_voltage_weak a) (ch2_voltage_weak a)
    (drive_voltage_weak a)
    (ch1 a) (ch2 a) (ch1_voltage a) (ch2_voltage a) (drive_voltage a)
    (frame_count a) (paused a) (single_channel a) (auto_scale a)
    (excitation_mode a) b (last_mode_was_weak a)
    (zoom_level a) (pan_offset_x a) (pan_offset_y a) (settings_active a).

Definition set_flags (fc : Z) (p sc au : bool) (mode : Z) (sa : bool)
  (a : App) : App :=
  mkApp (serial a)
    (ch1_std a) (ch2_std a) (ch1_voltage_std a) (ch2_voltage_std a)
    (drive_voltage_std a)
    (ch1_weak a) (ch2_weak a) (ch1_voltage_weak a) (ch2_voltage_weak a)
    (drive_voltage_weak a)
    (ch1 a) (ch2 a) (ch1_voltage a) (ch2_voltage a) (drive_voltage a)
    fc p sc au mode (alt_use_weak a) (last_mode_was_weak a)
    (zoom_level a) (pan_offset_x a) (pan_offset_y a) sa.

Definition set_view (zoom pan_x pan_y : Q) (a : App) : App :=
  mkApp (serial a)
    (ch1_std a) (ch2_std a) (ch1_voltage_std a) (ch2_voltage_std a)
    (drive_voltage_std a)
    (ch1_weak a) (ch2_weak a) (ch1_voltage_weak a) (ch2_voltage_weak a)
    (drive_voltage_weak a)
    (ch1 a) (ch2 a) (ch1_voltage a) (ch2_voltage a) (drive_voltage a)
    (frame_count a) (paused a) (single_channel a) (auto_scale a)
    (excitation_mode a) (alt_use_weak a) (last_mode_was_weak a)
    zoom pan_x pan_y (settings_active a).

(** [self.serial = ...] in [connect()], or the port being closed. *)
Definition set_serial (s : option Serial) (a : App) : App :=
  mkApp s
    (ch1_std a) (ch2_std a) (ch1_voltage_std a) (ch2_voltage_std a)
    (drive_voltage_std a)
    (ch1_weak a) (ch2_weak a) (ch1_voltage_weak a) (ch2_voltage_weak a)
    (drive_voltage_weak a)
    (ch1 a) (ch2 a) (ch1_voltage a) (ch2_voltage a) (drive_voltage a)
    (frame_count a) (paused a) (single_channel a) (auto_scale a)
    (excitation_mode a) (alt_use_weak a) (last_mode_was_weak a)
    (zoom_level a) (pan_offset_x a) (pan_offset_y a) (settings_active a).

(** The [if store_as_weak:] branch of "Store data". *)
Definition store_weak (r : Codec.Reading) (a : App) : App :=
  mkApp (serial a)
    (ch1_std a) (ch2_std a) (ch1_voltage_std a) (ch2_voltage_std a)
    (drive_voltage_std a)
    (Codec.r_ch1_current r) (Codec.r_ch2_current r)
    (Codec.r_ch1_raw r) (Codec.r_ch2_raw r) (Codec.r_drive_voltage r)
    (ch1 a) (ch2 a) (ch1_voltage a) (ch2_voltage a) (drive_voltage a)
    (frame_count a) (paused a) (single_channel a) (auto_scale a)
    (excitation_mode a) (alt_use_weak a) true
    (zoom_level a) (pan_offset_x a) (pan_offset_y a) (settings_active a).

(** The [else:] branch of "Store data". *)
Definition store_std (r : Codec.Reading) (a : App) : App :=
  mkApp (serial a)
    (Codec.r_ch1_current r) (Codec.r_ch2_current r)
    (Codec.r_ch1_raw r) (Codec.r_ch2_raw r) (Codec.r_drive_voltage r)
    (ch1_weak a) (ch2_weak a) (ch1_voltage_weak a) (ch2_voltage_weak a)
    (drive_voltage_weak a)
    (ch1 a) (ch2 a) (ch1_voltage a) (ch2_voltage a) (drive_voltage a)
    (frame_count a) (paused a) (single_channel a) (auto_scale a)
    (excitation_mode a) (alt_use_weak a) false
    (zoom_level a) (pan_offset_x a) (pan_offset_y a) (settings_active a).

(** "Set active data": [self.ch1 = ...] and the four others. *)
Definition set_active (c1 c2 v1 v2 dv : list Z) (a : App) : App :=
  mkApp (serial a)
    (ch1_std a) (ch2_std a) (ch1_voltage_std a) (ch2_voltage_std a)
    (drive_voltage_std a)
    (ch1_weak a) (ch2_weak a) (ch1_voltage_weak a) (ch2_voltage_weak a)
    (drive_voltage_weak a)
    c1 c2 v1 v2 dv
    (frame_count a) (paused a) (single_channel a) (auto_scale a)
    (excitation_mode a) (alt_use_weak a) (last_mode_was_weak a)
    (zoom_level a) (pan_offset_x a) (pan_offset_y a) (settings_active a).

(** ** [acquire] *)

(** [self.serial is None or not self.serial.is_open], negated. *)
Definition serial_is_open (a : App) : bool :=
  match serial a with
  | None => false
  | Some s => is_open s
  end.

Definition cmd_T : byte := "T"%byte.
Definition cmd_W : byte := "W"%byte.

(** "Determine command": the command byte, [store_as_weak], and the state
    after the possible flip of [alt_use_weak]. *)
Definition determine_command (self : App) : byte * bool * App :=
  if excitation_mode self =? 0 then (cmd_T, false, self)
  else if excitation_mode self =? 1 then (cmd_W, true, self)
  else
    let '(command, store_as_weak) :=
      if alt_use_weak self then (cmd_W, true) else (cmd_T, false) in
    (command, store_as_weak, set_alt_use_weak (negb (alt_use_weak self)) self).

(** "Store data" followed by "Set active data". *)
Definition store_data (store_as_weak : bool) (r : Codec.Reading) (self : App)
  : App :=
  let self := if store_as_weak then store_weak r self else store_std r self in
  if store_as_weak then
    set_active (ch1_weak self) (ch2_weak self)
               (ch1_voltage_weak self) (ch2_voltage_weak self)
               (drive_voltage_weak self) self
  else
    set_active (ch1_std self) (ch2_std self)
               (ch1_voltage_std self) (ch2_voltage_std self)
               (drive_voltage_std self) self.

(** Which [return] (or the [except]) ends a call of [acquire]. *)
Inductive outcome : Type :=
| Not_connected      (* first [return False]: no open serial port *)
| Transport_raised   (* serial I/O raised, caught by [except] *)
| Frame_length       (* [len(data) != 2016] *)
| Word_count         (* [len(values) != 1008] *)
| Parse_raised       (* parsing raised, caught by [except] *)
| Stored.            (* [return True] *)

(** The Boolean that [acquire] returns. *)
Definition returned (o : outcome) : bool :=
  match o with
  | Stored => true
  | _ => false
  end.

(** The part of [acquire] that follows the polling loop: from
    [if len(data) != 2016] to [return True]. *)
Definition process_frame (store_as_weak : bool) (data : list byte)
  (self : App) : outcome * App :=
  match Codec.decode data with
  | Codec.Bad_length => (Frame_length, self)
  | Codec.Bad_count => (Word_count, self)
  | Codec.Decode_raised => (Parse_raised, self)
  | Codec.Decoded r => (Stored, store_data store_as_weak r self)
  end.

Definition acquire (port : Port) (self : App) : outcome * App :=
  if negb (serial_is_open self) then (Not_connected, self)
  else
    let '(command, store_as_weak, self) := determine_command self in
    match request_frame port command with
    | None => (Transport_raised, self)
    | Some data => process_frame store_as_weak data self
    end.

(** [update(dt)]: one tick of the scheduler. *)
Definition update (port : Port) (self : App) : App :=
  if negb (paused self) && negb (settings_active self) then
    let '(o, self) := acquire port self in
    if returned o then
      set_flags (frame_count self + 1) (paused self) (single_channel self)
                (auto_scale self) (excitation_mode self)
                (settings_active self) self
    else self
  else self.

(** ** View transform: zoom, pan, fit, reset *)

Module View.

Local Open Scope Q_scope.

(** Python comparison [a > b] on floats. *)
Definition gt (a b : Q) : bool :=
  match a ?= b with
  | Gt => true
  | _ => false
  end.

(** Python [min(a, b)] and [max(a, b)]: the first argument wins a tie. *)
Definition py_min (a b : Q) : Q := if gt a b then b else a.
Definition py_max (a b : Q) : Q := if gt b a then b else a.

(** Python truth value of a list: [not lst] is [true] on the empty list. *)
Definition py_not {A : Type} (l : list A) : bool :=
  match l with
  | [] => true
  | _ => false
  end.

(** The condition under which both variants are drawn and fitted:
    [excitation_mode == 2 and len(ch1_std) > 0 and len(ch1_weak) > 0]. *)
Definition both_variants (self : App) : bool :=
  (excitation_mode self =? 2)%Z
  && (0 <? length (ch1_std self))%nat
  && (0 <? length (ch1_weak self))%nat.

(** [all_x] of [fit_to_window] (and of the auto-scale branch). *)
Definition all_x (self : App) : list Z :=
  if both_variants self then
    ch1_voltage_std self ++ ch2_voltage_std self
      ++ ch1_voltage_weak self ++ ch2_voltage_weak self
  else ch1_voltage self ++ ch2_voltage self.

(** [all_y] of [fit_to_window]. *)
Definition all_y (self : App) : list Z :=
  if both_variants self then
    ch1_std self ++ ch2_std self ++ ch1_weak self ++ ch2_weak self
  else ch1 self ++ ch2 self.

(** The constants of the fixed scale, shared by [draw_plot] and
    [fit_to_window]. *)
Definition base_x_min : Q := 0.
Definition base_x_max : Q := inject_Z ADC_MAX.
Definition y_range : Q := inject_Z (ADC_MAX - 700).
Definition base_y_max : Q := y_range / 8.
Definition base_y_min : Q := - y_range * 7 / 8.
Definition base_x_range : Q := base_x_max - base_x_min.
Definition base_y_range : Q := base_y_max - base_y_min.

(** The padded data extent of one axis in [fit_to_window]:
    [margin = (max - min) * 0.2; min -= margin; max += margin]. *)
Definition fit_margin (lst : list Z) : Q :=
  inject_Z (list_max lst - list_min lst) * (2 # 10).
Definition fit_min (lst : list Z) : Q :=
  inject_Z (list_min lst) - fit_margin lst.
Definition fit_max (lst : list Z) : Q :=
  inject_Z (list_max lst) + fit_margin lst.

(** [zoom_x = base_x_range / data_x_range if data_x_range > 0 else 1.0]. *)
Definition fit_factor (base_range data_range : Q) : Q :=
  if gt data_range 0 then base_range / data_range else 1.

Definition zoom_x (self : App) : Q :=
  fit_factor base_x_range (fit_max (all_x self) - fit_min (all_x self)).
Definition zoom_y (self : App) : Q :=
  fit_factor base_y_range (fit_max (all_y self) - fit_min (all_y self)).

(** [self.zoom_level = min(zoom_x, zoom_y)] followed by
    [if self.zoom_level > 1.0: self.zoom_level = 1.0]. *)
Definition fitted_zoom (self : App) : Q :=
  let zoom := py_min (zoom_x self) (zoom_y self) in
  if gt zoom 1 then 1 else zoom.

(** [fit_to_window()]. *)
Definition fit_to_window (self : App) : App :=
  if py_not (ch1 self) || py_not (ch2 self) then self
  else
    let data_x_min := fit_min (all_x self) in
    let data_x_max := fit_max (all_x self) in
    let data_y_min := fit_min (all_y self) in
    let data_y_max := fit_max (all_y self) in
    let zoom := fitted_zoom self in
    let data_x_center := (data_x_min + data_x_max) / 2 in
    let data_y_center := (data_y_min + data_y_max) / 2 in
    let base_x_center := (base_x_min + base_x_max) / 2 in
    let base_y_center := (base_y_min + base_y_max) / 2 in
    set_view zoom (data_x_center - base_x_center)
             (data_y_center - base_y_center) self.

(** [reset_view()]. *)
Definition reset_view (self : App) : App := set_view 1 0 0 self.

(** [on_mouse_scroll(x, y, scroll_x, scroll_y)]. *)
Definition on_mouse_scroll (scroll_y : Q) (self : App) : App :=
  if settings_active self then self
  else if negb (auto_scale self) then
    if gt scroll_y 0 then
      set_view (zoom_level self * (12 # 10))
               (pan_offset_x self) (pan_offset_y self) self
    else
      set_view (py_max (1 # 10) (zoom_level self / (12 # 10)))
               (pan_offset_x self) (pan_offset_y self) self
  else self.

(** The viewport [(x_min, x_max, y_min, y_max)] of the "Fixed scale with
    zoom/pan" branch of [draw_plot]; dividing by a zero zoom level raises
    [ZeroDivisionError], rendered as [None]. *)
Definition fixed_bounds (self : App) : option (Q * Q * Q * Q) :=
  if Qeq_bool (zoom_level self) 0 then None
  else
    let x_range_visible := (base_x_max - base_x_min) / zoom_level self in
    let y_range_visible := (base_y_max - base_y_min) / zoom_level self in
    let x_center := (base_x_max + base_x_min) / 2 + pan_offset_x self in
    let y_center := (base_y_max + base_y_min) / 2 + pan_offset_y self in
    Some (x_center - x_range_visible / 2, x_center + x_range_visible / 2,
          y_center - y_range_visible / 2, y_center + y_range_visible / 2).



End View.

(** ** The view computations in IEEE binary64

    The same lines of [fit_to_window] and of the fixed-scale branch of
    [draw_plot], with every float operation rounded as CPython rounds it
    (Rocq's primitive floats are IEEE 754 binary64 with round-to-nearest-even).
    Integer operands are converted exactly, as Python does for integers of
    this size.  This reading is used to evaluate the code on concrete data. *)

Module FloatView.

Import PrimFloat.
Local Open Scope float_scope.

(** [float(z)] for a Python integer below 2^53 in absolute value. *)
Definition of_int (z : Z) : float :=
  match z with
  | Zneg p => - PrimFloat.of_uint63 (Uint63.of_Z (Zpos p))
  | _ => PrimFloat.of_uint63 (Uint63.of_Z z)
  end.

(** Python [min(a, b)] on floats. *)
Definition py_min (a b : float) : float := if PrimFloat.ltb b a then b else a.

Definition base_x_min : float := of_int 0.
Definition base_x_max : float := of_int ADC_MAX.
(** [y_range / 8] and [-y_range * 7 / 8]: integer numerators, true division. *)
Definition base_y_max : float := of_int (ADC_MAX - 700) / of_int 8.
Definition base_y_min : float := of_int (- (ADC_MAX - 700) * 7) / of_int 8.
Definition base_x_range : float := of_int (ADC_MAX - 0).
Definition base_y_range : float := base_y_max - base_y_min.

(** [margin = (max - min) * 0.2], [min -= margin], [max += margin]; the
    literal [0.2] denotes the double [0x1.999999999999ap-3]. *)
Definition fit_margin (lst : list Z) : float :=
  of_int (list_max lst - list_min lst) * 0x1.999999999999ap-3.
Definition fit_min (lst : list Z) : float :=
  of_int (list_min lst) - fit_margin lst.
Definition fit_max (lst : list Z) : float :=
  of_int (list_max lst) + fit_margin lst.

(** [base_range / data_range if data_range > 0 else 1.0]. *)
Definition fit_factor (base_range data_range : float) : float :=
  if PrimFloat.ltb 0 data_range then base_range / data_range else 1.

(** [fit_to_window()]: the new [(zoom_level, pan_offset_x, pan_offset_y)],
    or [None] when the method returns at once for lack of data. *)
Definition fit_to_window (self : App) : option (float * float * float) :=
  if View.py_not (ch1 self) || View.py_not (ch2 self) then None
  else
    let data_x_min := fit_min (View.all_x self) in
    let data_x_max := fit_max (View.all_x self) in
    let data_y_min := fit_min (View.all_y self) in
    let data_y_max := fit_max (View.all_y self) in
    let data_x_range := data_x_max - data_x_min in
    let data_y_range := data_y_max - data_y_min in
    let zoom_x := fit_factor base_x_range data_x_range in
    let zoom_y := fit_factor base_y_range data_y_range in
    let zoom := py_min zoom_x zoom_y in
    let zoom := if PrimFloat.ltb 1 zoom then 1 else zoom in
    let data_x_center := (data_x_min + data_x_max) / 2 in
    let data_y_center := (data_y_min + data_y_max) / 2 in
    let base_x_center := of_int (0 + ADC_MAX) / 2 in
    let base_y_center := (base_y_min + base_y_max) / 2 in
    Some (zoom, data_x_center - base_x_center, data_y_center - base_y_center).

(** The viewport [(x_min, x_max, y_min, y_max)] that [draw_plot] computes
    in fixed mode from a zoom level and pan offsets. *)
Definition fixed_bounds (zoom pan_x pan_y : float)
  : float * float * float * float :=
  let x_range_visible := of_int (ADC_MAX - 0) / zoom in
  let y_range_visible := (base_y_max - base_y_min) / zoom in
  let x_center := of_int (ADC_MAX + 0) / 2 + pan_x in
  let y_center := (base_y_max + base_y_min) / 2 + pan_y in
  (x_center - x_range_visible / 2, x_center + x_range_visible / 2,
   y_center - y_range_visible / 2, y_center + y_range_visible / 2).

End FloatView.

(** ** Keyboard actions of [on_key_press] and the event loop *)

(** The branch of [on_key_press] that a key symbol selects once the
    configured key bindings are resolved. *)
Inductive key_action : Type :=
| Key_space | Key_pause | Key_single_channel | Key_auto_scale
| Key_fit_window | Key_reset_view | Key_settings
| Key_escape (color_picker_active : bool).

Definition on_key_press (k : key_action) (self : App) : App :=
  if settings_active self then
    match k with
    | Key_escape false =>
        set_flags (frame_count self) (paused self) (single_channel self)
                  (auto_scale self) (excitation_mode self) false self
    | _ => self
    end
  else
    match k with
    | Key_escape _ => self
    | Key_space =>
        set_flags (frame_count self) (paused self) (single_channel self)
                  (auto_scale self) ((excitation_mode self + 1) mod 3)
                  (settings_active self) self
    | Key_pause =>
        set_flags (frame_count self) (negb (paused self))
                  (single_channel self) (auto_scale self)
                  (excitation_mode self) (settings_active self) self
    | Key_single_channel =>
        set_flags (frame_count self) (paused self)
                  (negb (single_channel self)) (auto_scale self)
                  (excitation_mode self) (settings_active self) self
    | Key_auto_scale =>
        set_flags (frame_count self) (paused self) (single_channel self)
                  (negb (auto_scale self)) (excitation_mode self)
                  (settings_active self) self
    | Key_fit_window =>
        if negb (auto_scale self) then View.fit_to_window self else self
    | Key_reset_view =>
        if negb (auto_scale self) then View.reset_view self else self
    | Key_settings =>
        set_flags (frame_count self) (paused self) (single_channel self)
                  (auto_scale self) (excitation_mode self) true self
    end.

(** What can happen to the application between two redraws. *)
Inductive event : Type :=
| Ev_tick (port : Port)          (* scheduler calls [update] *)
| Ev_acquire (port : Port)       (* a direct call of [acquire] *)
| Ev_key (k : key_action)
| Ev_scroll (scroll_y : Q)
| Ev_fit                         (* a direct call of [fit_to_window] *)
| Ev_reset                       (* a direct call of [reset_view] *)
| Ev_link (s : option Serial).   (* the serial port is (re)opened or lost *)

Definition handle (e : event) (self : App) : App :=
  match e with
  | Ev_tick port => update port self
  | Ev_acquire port => snd (acquire port self)
  | Ev_key k => on_key_press k self
  | Ev_scroll s => View.on_mouse_scroll s self
  | Ev_fit => View.fit_to_window self
  | Ev_reset => View.reset_view self
  | Ev_link s => set_serial s self
  end.

(** Running a sequence of events, oldest first. *)
Definition run (es : list event) (self : App) : App :=
  fold_left (fun a e => handle e a) es self.

(** ** Views of the sample store *)

(** The five buffers of a variant, or of the active series, in the order
    drive voltage, channel-1 voltage, channel-2 voltage, channel-1 current,
    channel-2 current. *)
Definition series : Type :=
  (list Z * list Z * list Z * list Z * list Z)%type.

Definition std_buffers (a : App) : series :=
  (drive_voltage_std a, ch1_voltage_std a, ch2_voltage_std a,
   ch1_std a, ch2_std a).

Definition weak_buffers (a : App) : series :=
  (drive_voltage_weak a, ch1_voltage_weak a, ch2_voltage_weak a,
   ch1_weak a, ch2_weak a).

Definition active_series (a : App) : series :=
  (drive_voltage a, ch1_voltage a, ch2_voltage a, ch1 a, ch2 a).

Definition reading_series (r : Codec.Reading) : series :=
  (Codec.r_drive_voltage r, Codec.r_ch1_raw r, Codec.r_ch2_raw r,
   Codec.r_ch1_current r, Codec.r_ch2_current r).

(** Everything the sample store holds: both variants, the active series
    and the last-variant flag. *)
Definition sample_store (a : App) : series * series * series * bool :=
  (std_buffers a, weak_buffers a, active_series a, last_mode_was_weak a).

(** The variant that the next call of [acquire] asks for ([store_as_weak]). *)
Definition requests_weak (a : App) : bool := snd (fst (determine_command a)).

(** ** Ranges of decoded data *)






(** ** Sample ports and states *)

Definition open_serial : option Serial := Some (mkSerial true).

(** A device that never answers: the deadline passes with no byte read. *)
Definition silent_port : Port :=
  mkPort true (fun _ => true) (fun _ => []).

(** A device that answers any command with 2016 copies of one byte. *)
Definition steady_port (b : byte) : Port :=
  mkPort true (fun _ => true) (fun _ => [In_waiting (repeat b 2016)]).

(** A frame whose bytes count up modulo 256, and a device that sends it. *)
Definition ramp_frame : list byte :=
  map (fun n => match Byte.of_N (N.of_nat n mod 256) with
                | Some b => b
                | None => x00
                end) (seq 0 2016).

Definition ramp_port : Port :=
  mkPort true (fun _ => true) (fun _ => [In_waiting ramp_frame]).



(** The state after pressing SPACE twice on a freshly started, connected
    application: Alternating mode. *)
Definition alternating_app : App :=
  run [Ev_key Key_space; Ev_key Key_space] (init open_serial).

(** * Further parts of the program *)

Unset Implicit Arguments.

(** The bytes the device makes available to the polling loop, in order, up
    to the poll at which the deadline has passed or the port fails. *)
Fixpoint offered (ps : list poll) : list byte :=
  match ps with
  | In_waiting buf :: ps' => buf ++ offered ps'
  | _ => []
  end.

(** Whether the polling loop meets a failing poll before it has a frame. *)
Fixpoint poll_fails (ps : list poll) (collected : nat) : bool :=
  if (collected <? 2016)%nat then
    match ps with
    | Io_error :: _ => true
    | In_waiting buf :: ps' => poll_fails ps' (collected + length buf)
    | _ => false
    end
  else false.

(** The command byte that a call of [acquire] decides on. *)
Definition command_of (self : App) : byte :=
  fst (fst (determine_command self)).

(** The commands decided by successive calls of [acquire], the device
    behaving as [ports] says, one entry per call. *)
Fixpoint commands_requested (ports : list Port) (self : App) : list byte :=
  match ports with
  | [] => []
  | port :: ports' =>
      command_of self :: commands_requested ports' (snd (acquire port self))
  end.

(** A stored series: empty or 336 samples long, all five buffers of one
    length, and each current the drive voltage minus the channel voltage. *)
Definition series_well_formed (s : series) : Prop :=
  let '(dv, v1, v2, c1, c2) := s in
  (length dv = 0%nat \/ length dv = 336%nat)
  /\ length v1 = length dv /\ length v2 = length dv
  /\ length c1 = length dv /\ length c2 = length dv
  /\ forall i, (i < length dv)%nat ->
       nth i c1 0 + nth i v1 0 = nth i dv 0
       /\ nth i c2 0 + nth i v2 0 = nth i dv 0.

(** Both variants are well formed and the active series is the buffer set
    of the variant stored last. *)
Definition store_well_formed (a : App) : Prop :=
  series_well_formed (std_buffers a)
  /\ series_well_formed (weak_buffers a)
  /\ active_series a
     = (if last_mode_was_weak a then weak_buffers a else std_buffers a).

(** The attributes that [acquire] never assigns. *)
Definition controls (a : App)
  : option Serial * Z * bool * bool * bool * Z * Q * Q * Q * bool :=
  (serial a, frame_count a, paused a, single_channel a, auto_scale a,
   excitation_mode a, zoom_level a, pan_offset_x a, pan_offset_y a,
   settings_active a).

(** The part of the state that belongs to acquisition. *)
Definition acquisition_state (a : App)
  : (series * series * series * bool) * bool * Z :=
  (sample_store a, alt_use_weak a, frame_count a).

(** The part of the state that belongs to the view. *)
Definition view_state (a : App) : Q * Q * Q * bool :=
  (zoom_level a, pan_offset_x a, pan_offset_y a, auto_scale a).

Module Plot.

Local Open Scope Q_scope.





(** Python [int(x)] on a float: truncation towards zero. *)
Definition py_int (q : Q) : Z := Z.quot (Qnum q) (Zpos (Qden q)).



End Plot.

Module Widgets.

Import PrimFloat.
Local Open Scope float_scope.

(** Python [int(x)] on a float: truncation towards zero; [None] stands for
    the exception raised on an infinity or a NaN. *)
Definition py_int (x : float) : option Z :=
  match FloatOps.Prim2SF x with
  | SpecFloat.S754_zero _ => Some 0%Z
  | SpecFloat.S754_finite s m e =>
      let a := Z.shiftl (Zpos m) e in
      Some (if s then (- a)%Z else a)
  | _ => None
  end.

(** [_normalize_color(color)]: [color[0] / 255, color[1] / 255,
    color[2] / 255, 1.0] on a list of integers; a list shorter than three
    raises [IndexError]. *)
Definition _normalize_color (color : list Z)
  : option (float * float * float * float) :=
  match color with
  | r :: g :: b :: _ =>
      Some (FloatView.of_int r / 255, FloatView.of_int g / 255,
            FloatView.of_int b / 255, 1)
  | _ => None
  end.

(** [_color_to_255(color)]:
    [int(color[0] * 255), int(color[1] * 255), int(color[2] * 255)]. *)
Definition _color_to_255 (color : float * float * float * float)
  : option (Z * Z * Z) :=
  let '(r, g, b, _) := color in
  match py_int (r * 255), py_int (g * 255), py_int (b * 255) with
  | Some r', Some g', Some b' => Some (r', g', b')
  | _, _, _ => None
  end.

(** [self.slider_width] of [ColorPickerDialog]. *)
Definition slider_width : Z := 250.

(** The value that [_update_slider] computes from the mouse position:
    [relative_x = max(0, min(mouse_x - slider_x, self.slider_width))],
    [int((relative_x / self.slider_width) * 255)]. *)
Definition slider_value (x mouse_x : Z) : option Z :=
  let slider_x := (x + 100)%Z in
  let relative_x := Z.max 0 (Z.min (mouse_x - slider_x) slider_width) in
  py_int (FloatView.of_int relative_x / FloatView.of_int slider_width * 255).

(** [lst[index] = value] for a non-negative index; out of range raises
    [IndexError]. *)
Fixpoint list_assign {A : Type} (lst : list A) (index : nat) (value : A)
  : option (list A) :=
  match lst, index with
  | [], _ => None
  | _ :: t, O => Some (value :: t)
  | h :: t, S i =>
      match list_assign t i value with
      | Some t' => Some (h :: t')
      | None => None
      end
  end.

(** [_update_slider(index, mouse_x)] as a function of [self.x] and
    [self.color]. *)
Definition _update_slider (x : Z) (color : list Z) (index : nat)
  (mouse_x : Z) : option (list Z) :=
  match slider_value x mouse_x with
  | Some v => list_assign color index v
  | None => None
  end.

End Widgets.

Module Config.

Definition string : Set := String.string.

(** A value read by [json.load] or built by the application: [None],
    booleans, integers, floats, strings, lists and dictionaries.  A Python
    [dict] keeps its keys in insertion order, so it is an association list
    (no key twice). *)
#[local] Unset Elimination Schemes.
Inductive json : Type :=
| JNull
| JBool (b : bool)
| JInt (n : Z)
| JFloat (x : PrimFloat.float)
| JStr (s : string)
| JList (l : list json)
| JDict (items : list (string * json)).

#[local] Set Elimination Schemes.

Definition dict : Type := list (string * json).

(** [d.get(k)], also [k in d]: the value stored under [k], if any. *)
Fixpoint dict_get (k : string) (d : dict) : option json :=
  match d with
  | [] => None
  | (k', v) :: d' => if String.eqb k k' then Some v else dict_get k d'
  end.

(** [d[k] = v]: an existing key keeps its place, a new key goes last. *)
Fixpoint dict_set (k : string) (v : json) (d : dict) : dict :=
  match d with
  | [] => [(k, v)]
  | (k', v') :: d' =>
      if String.eqb k k' then (k', v) :: d' else (k', v') :: dict_set k v d'
  end.

(** [_deep_update(base_dict, update_dict)], by recursion on the update. *)
Fixpoint deep_update_value (update : json) (base : dict) {struct update}
  : dict :=
  match update with
  | JDict items =>
      (fix loop (items : dict) (base : dict) {struct items} : dict :=
         match items with
         | [] => base
         | (temp_key, value) :: rest =>
             loop rest
               match dict_get temp_key base, value with
               | Some (JDict sub), JDict _ =>
                   dict_set temp_key (JDict (deep_update_value value sub))
                            base
               | _, _ => dict_set temp_key value base
               end
         end) items base
  | _ => base
  end.

Definition _deep_update (base_dict update_dict : dict) : dict :=
  deep_update_value (JDict update_dict) base_dict.

(** [load_config()]: [saved] is what [json.load] returned, or [None] when
    the file is missing or unreadable.  A saved value that is not a
    dictionary makes [.items()] raise; the handler keeps the defaults. *)
Definition load_config (config : dict) (saved : option json) : dict :=
  match saved with
  | Some (JDict update) => _deep_update config update
  | _ => config
  end.

(** [get] with its variadic [keys], on a configuration value.  The outer [None] is an
    exception ([.get] on something that is no dictionary); Python's [None]
    result is [Some JNull]. *)
Fixpoint get (value : json) (keys : list string) : option json :=
  match keys with
  | [] => Some value
  | k :: keys' =>
      match value with
      | JDict d =>
          match dict_get k d with
          | None | Some JNull => Some JNull
          | Some v => get v keys'
          end
      | _ => None
      end
  end.

(** [set] with [value] and its variadic [keys]: the configuration
    afterwards, or [None] for an
    exception ([keys] empty, or a value on the way that is no dictionary);
    nothing has been assigned when the exception is raised. *)
Fixpoint set (value : json) (keys : list string) (config : json)
  : option json :=
  match config, keys with
  | JDict d, [k] => Some (JDict (dict_set k value d))
  | JDict d, k :: keys' =>
      let sub := match dict_get k d with
                 | Some v => v
                 | None => JDict []
                 end in
      match set value keys' sub with
      | Some sub' => Some (JDict (dict_set k sub' d))
      | None => None
      end
  | _, _ => None
  end.

Section Defaults.
Import String.
Local Open Scope string_scope.

(** [DEFAULT_CONFIG]. *)
Definition DEFAULT_CONFIG : dict :=
  [("serial_port", JStr "COM4");
   ("window_width", JInt 1080);
   ("window_height", JInt 1080);
   ("colors",
    JDict
      [("background", JList [JInt 0; JInt 0; JInt 0]);
       ("dut1_trace", JList [JInt 50; JInt 150; JInt 255]);
       ("dut2_trace", JList [JInt 255; JInt 50; JInt 50]);
       ("dut1_dimmed", JList [JInt 25; JInt 75; JInt 128]);
       ("dut2_dimmed", JList [JInt 128; JInt 25; JInt 25]);
       ("grid_background", JList [JInt 30; JInt 30; JInt 30]);
       ("grid", JList [JInt 50; JInt 50; JInt 50]);
       ("crosshair", JList [JInt 255; JInt 255; JInt 50]);
       ("label", JList [JInt 200; JInt 200; JInt 200]);
       ("axis_title", JList [JInt 255; JInt 255; JInt 255]);
       ("border", JList [JInt 100; JInt 100; JInt 100]);
       ("dut_voltage", JList [JInt 50; JInt 255; JInt 150])]);
   ("keybinds",
    JDict
      [("quit", JStr "q");
       ("pause", JStr "p");
       ("single_channel", JStr "s");
       ("auto_scale", JStr "a");
       ("fit_window", JStr "f");
       ("reset_view", JStr "r");
       ("cycle_mode", JStr "space");
       ("settings", JStr "f1")])].

(** A saved file that changes the port and one colour and adds a key the
    defaults do not have. *)
Definition sample_saved : dict :=
  [("serial_port", JStr "COM7");
   ("colors", JDict [("grid", JList [JInt 1; JInt 2; JInt 3])]);
   ("theme", JStr "dark")].

End Defaults.

End Config.

Module Detect.

(** One entry of [comports()] as [auto_detect_port] meets it: its device
    name, the behaviour of the port once opened ([None] when opening it
    raises), and whether [close()] succeeds. *)
Record Candidate : Type := mkCandidate {
  device : String.string;
  opened : option Port;
  close_ok : bool
}.

(** The body of the [try] for one port: [true] when it reaches
    [return port]. *)
Definition answers (c : Candidate) : bool :=
  match opened c with
  | None => false
  | Some port =>
      match request_frame port cmd_T with
      | None => false
      | Some data => close_ok c && (length data =? 2016)%nat
      end
  end.

(** [auto_detect_port()] over the enumerated ports. *)
Fixpoint auto_detect_port (ports : list Candidate) : option String.string :=
  match ports with
  | [] => None
  | c :: ports' =>
      if answers c then Some (device c) else auto_detect_port ports'
  end.

End Detect.

Module Input.

Section WithChar.
(** The characters of a Python string. *)
Variable char : Type.

(** The attributes of [InputBox] that text entry reads and writes. *)
Record InputBox : Type := mkInputBox {
  text : list char;
  active : bool
}.

(** [handle_text(text)]: [if self.active: self.text += text]. *)
Definition handle_text (typed : list char) (box : InputBox) : InputBox :=
  if active box then mkInputBox (text box ++ typed) (active box) else box.

(** [handle_backspace()]:
    [if self.active and self.text: self.text = self.text[:-1]]. *)
Definition handle_backspace (box : InputBox) : InputBox :=
  if active box then
    match text box with
    | [] => box
    | _ :: _ => mkInputBox (removelast (text box)) (active box)
    end
  else box.

(** [n] presses of the backspace key. *)
Definition backspaces (n : nat) (box : InputBox) : InputBox :=
  Nat.iter n handle_backspace box.

End WithChar.

Arguments mkInputBox {char} text active.
Arguments text {char} i.
Arguments active {char} i.
Arguments handle_text {char} typed box.
Arguments handle_backspace {char} box.
Arguments backspaces {char} n box.

End Input.

Module Mouse.

Local Open Scope Q_scope.

(** The application together with the window size and the drag
    attributes, which only the mouse handlers use. *)
Record Window : Type := mkWindow {
  app : App;
  width : Z;
  height : Z;
  dragging : bool;
  drag_start_offset : Q * Q
}.



(** [on_mouse_release(x, y, button, modifiers)]. *)
Definition on_mouse_release (left : bool) (win : Window) : Window :=
  if settings_active (app win) then win
  else if left then
    mkWindow (app win) (width win) (height win) false
             (drag_start_offset win)
  else win.


End Mouse.

Set Implicit Arguments.

(** * Properties *)

(** ** Loops in the error monad *)

Section ForEach.
Context {A B : Type}.
Variable body : A -> option B.

Lemma for_each_length (xs : list A) (ys : list B) :
  for_each body xs = Some ys -> length ys = length xs.
Proof.
  revert ys; induction xs as [|x xs IH]; simpl; intros ys H.
  - injection H as <-; reflexivity.
  - destruct (body x) as [y|]; simpl in H; [|discriminate].
    destruct (for_each body xs) as [ys'|]; simpl in H; [|discriminate].
    injection H as <-; simpl; f_equal; auto.
Qed.

Lemma for_each_nth (xs : list A) (ys : list B) (i : nat) (x : A) :
  for_each body xs = Some ys ->
  nth_error xs i = Some x ->
  nth_error ys i = body x.
Proof.
  revert ys i; induction xs as [|x0 xs IH]; intros ys i H Hi.
  - destruct i; discriminate.
  - simpl in H.
    destruct (body x0) as [y|] eqn:Ey; simpl in H; [|discriminate].
    destruct (for_each body xs) as [ys'|]; simpl in H; [|discriminate].
    injection H as <-.
    destruct i as [|i]; simpl in *.
    + injection Hi as <-; auto.
    + eapply IH; eauto.
Qed.

Lemma for_each_total (xs : list A) :
  (forall x, In x xs -> body x <> None) ->
  exists ys, for_each body xs = Some ys.
Proof.
  induction xs as [|x xs IH]; intros H; simpl.
  - eexists; reflexivity.
  - destruct (body x) as [y|] eqn:Ey.
    + destruct IH as [ys ->]; [intros; apply H; right; assumption|].
      simpl; eexists; reflexivity.
    + exfalso; apply (H x); [left; reflexivity | assumption].
Qed.
End ForEach.

(** ** The frame parser *)

Section CodecFacts.
Import Codec.

Lemma byte_val_range (b : byte) : 0 <= byte_val b < 256.
Proof.
  unfold byte_val.
  pose proof (Byte.to_N_bounded b) as H.
  lia.
Qed.

Lemma range_step2_even (m : nat) :
  range_step2 (2 * m) = map (fun k => (2 * k)%nat) (seq 0 m).
Proof.
  unfold range_step2; do 2 f_equal.
  replace (2 * m + 1)%nat with (S (2 * m)) by lia.
  apply Nat.div2_succ_double.
Qed.

Lemma slice_pair (data : list byte) (i : nat) :
  (i + 1 < length data)%nat ->
  slice data i (i + 2) = [nth i data x00; nth (i + 1) data x00].
Proof.
  revert i; induction data as [|b data IH]; intros i H; simpl in H; [lia|].
  unfold slice in *.
  replace (i + 2 - i)%nat with 2%nat in * by lia.
  destruct i as [|i].
  - destruct data as [|c data]; simpl in *; [lia | reflexivity].
  - simpl skipn.
    specialize (IH i ltac:(lia)).
    replace (i + 2 - i)%nat with 2%nat in IH by lia.
    rewrite IH; reflexivity.
Qed.

Lemma parse_word_even (data : list byte) (k : nat) :
  (2 * k + 1 < length data)%nat ->
  parse_word data (2 * k) = Some (sample_word data k).
Proof.
  intros H; unfold parse_word, sample_word.
  rewrite slice_pair by assumption; reflexivity.
Qed.

(** On a frame of [2 * m] bytes the parse loop does not raise and yields
    [m] words, the [k]-th being the masked word at byte offset [2 * k]. *)
Lemma parse_values_even (data : list byte) (m : nat) :
  length data = (2 * m)%nat ->
  exists values,
    parse_values data = Some values
    /\ length values = m
    /\ forall k, (k < m)%nat -> nth_error values k = Some (sample_word data k).
Proof.
  intros Hlen; unfold parse_values.
  rewrite Hlen, range_step2_even.
  destruct (for_each_total (parse_word data)
              (map (fun k => (2 * k)%nat) (seq 0 m))) as [values Hv].
  - intros i Hi; apply in_map_iff in Hi as (k & <- & Hk).
    apply in_seq in Hk.
    rewrite parse_word_even by lia; discriminate.
  - exists values; split; [assumption|]; split.
    + rewrite (for_each_length _ _ Hv), length_map, length_seq; reflexivity.
    + intros k Hk.
      rewrite (for_each_nth _ _ k (x := (2 * k)%nat) Hv).
      * apply parse_word_even; lia.
      * rewrite nth_error_map, nth_error_seq.
        destruct (Nat.ltb_spec k m); [reflexivity | lia].
Qed.

(** Masking with [0x0FFF] keeps the low 12 bits. *)
Lemma land_0FFF (w : Z) : Z.land w 0x0FFF = w mod 4096.
Proof. exact (Z.land_ones w 12 ltac:(lia)). Qed.

Lemma sample_word_range (data : list byte) (k : nat) :
  0 <= sample_word data k <= 4095.
Proof.
  unfold sample_word; rewrite land_0FFF.
  match goal with
  | |- _ <= ?w mod _ <= _ => pose proof (Z.mod_pos_bound w 4096 ltac:(lia))
  end.
  lia.
Qed.

(** Strided slices. *)
Lemma every_third_spec {A : Type} (n : nat) :
  forall l : list A, (length l <= n)%nat ->
    length (every_third l) = ((length l + 2) / 3)%nat
    /\ forall i, nth_error (every_third l) i = nth_error l (3 * i).
Proof.
  induction n as [n IH] using lt_wf_ind; intros l Hl.
  destruct l as [|x [|y [|z t]]].
  - split; [reflexivity | intros [|i]; reflexivity].
  - split; [reflexivity|].
    intros [|i]; [reflexivity|].
    simpl every_third.
    replace (3 * S i)%nat with (S (S (S (3 * i)))) by lia.
    simpl; destruct i; reflexivity.
  - split; [reflexivity|].
    intros [|i]; [reflexivity|].
    simpl every_third.
    replace (3 * S i)%nat with (S (S (S (3 * i)))) by lia.
    simpl; destruct i; reflexivity.
  - simpl in Hl.
    destruct (IH (length t) ltac:(lia) t (le_n _)) as [Hlen Hnth].
    split.
    + change (every_third (x :: y :: z :: t)) with (x :: every_third t).
      simpl length; rewrite Hlen.
      replace (S (S (S (length t))) + 2)%nat
        with (1 * 3 + (length t + 2))%nat by lia.
      rewrite Nat.div_add_l by lia; lia.
    + intros [|i]; [reflexivity|].
      change (every_third (x :: y :: z :: t)) with (x :: every_third t).
      replace (3 * S i)%nat with (S (S (S (3 * i)))) by lia.
      simpl; apply Hnth.
Qed.

Lemma slice_from_step3_nth {A : Type} (k : nat) (l : list A) (i : nat) :
  nth_error (slice_from_step3 k l) i = nth_error l (3 * i + k).
Proof.
  unfold slice_from_step3.
  destruct (every_third_spec (n := length (skipn k l)) (skipn k l) (le_n _))
    as [_ H].
  rewrite H, nth_error_skipn; f_equal; lia.
Qed.

Lemma slice_from_step3_length {A : Type} (k : nat) (l : list A) :
  length (slice_from_step3 k l) = ((length l - k + 2) / 3)%nat.
Proof.
  unfold slice_from_step3.
  destruct (every_third_spec (n := length (skipn k l)) (skipn k l) (le_n _))
    as [H _].
  rewrite H, length_skipn; reflexivity.
Qed.

(** The current comprehension does not raise when the raw series is at
    least as long as the drive series. *)
Lemma current_series_spec (dv raw : list Z) :
  (length dv <= length raw)%nat ->
  exists cs,
    current_series dv raw = Some cs
    /\ length cs = length dv
    /\ forall i, (i < length dv)%nat ->
         nth i cs 0 = nth i dv 0 - nth i raw 0.
Proof.
  intros Hlen; unfold current_series.
  set (body := fun i : nat =>
                 d <- nth_error dv i;; r <- nth_error raw i;; Some (d - r)).
  assert (Hbody : forall i, (i < length dv)%nat ->
            body i = Some (nth i dv 0 - nth i raw 0)).
  { intros i Hi; unfold body.
    rewrite (nth_error_nth' dv 0 Hi).
    rewrite (nth_error_nth' raw 0) by lia.
    reflexivity. }
  destruct (for_each_total body (seq 0 (length dv))) as [cs Hcs].
  - intros i Hi; apply in_seq in Hi.
    rewrite Hbody by lia; discriminate.
  - exists cs; split; [assumption|]; split.
    + rewrite (for_each_length _ _ Hcs), length_seq; reflexivity.
    + intros i Hi.
      apply nth_error_nth.
      rewrite (for_each_nth _ _ i (x := i) Hcs).
      * apply Hbody; assumption.
      * rewrite nth_error_seq.
        destruct (Nat.ltb_spec i (length dv)); [reflexivity | lia].
Qed.
End CodecFacts.

Section DecodeFrame.
Import Codec.

(** A frame of exactly 2016 bytes is decoded, without any exception, into
    five series of 336 values; this lemma carries the whole content of
    the decoding step and is what the statements below rest on. *)
Lemma decode_frame (data : list byte) :
  length data = 2016%nat ->
  exists r,
    decode data = Decoded r
    /\ (length (r_drive_voltage r) = 336
        /\ length (r_ch1_raw r) = 336
        /\ length (r_ch2_raw r) = 336
        /\ length (r_ch1_current r) = 336
        /\ length (r_ch2_current r) = 336)%nat
    /\ forall i, (i < 336)%nat ->
         nth i (r_drive_voltage r) 0 = sample_word data (3 * i)
         /\ nth i (r_ch1_raw r) 0 = sample_word data (3 * i + 1)
         /\ nth i (r_ch2_raw r) 0 = sample_word data (3 * i + 2)
         /\ nth i (r_ch1_current r) 0
            = nth i (r_drive_voltage r) 0 - nth i (r_ch1_raw r) 0
         /\ nth i (r_ch2_current r) 0
            = nth i (r_drive_voltage r) 0 - nth i (r_ch2_raw r) 0.
Proof.
  intros Hlen.
  destruct (@parse_values_even data 1008) as (values & Hv & Hvl & Hvn);
    [rewrite Hlen; reflexivity|].
  assert (L0 : length (slice_from_step3 0 values) = 336%nat)
    by (rewrite slice_from_step3_length, Hvl; reflexivity).
  assert (L1 : length (slice_from_step3 1 values) = 336%nat)
    by (rewrite slice_from_step3_length, Hvl; reflexivity).
  assert (L2 : length (slice_from_step3 2 values) = 336%nat)
    by (rewrite slice_from_step3_length, Hvl; reflexivity).
  destruct (current_series_spec (slice_from_step3 0 values)
              (slice_from_step3 1 values)) as (c1 & Hc1 & Lc1 & Nc1);
    [rewrite L0, L1; apply le_n|].
  destruct (current_series_spec (slice_from_step3 0 values)
              (slice_from_step3 2 values)) as (c2 & Hc2 & Lc2 & Nc2);
    [rewrite L0, L2; apply le_n|].
  exists (mkReading (slice_from_step3 0 values) (slice_from_step3 1 values)
                    (slice_from_step3 2 values) c1 c2).
  split; [|split].
  - unfold decode.
    rewrite Hlen, Nat.eqb_refl; cbn [negb].
    rewrite Hv, Hvl, Nat.eqb_refl; cbn [negb].
    cbv zeta; rewrite Hc1, Hc2; reflexivity.
  - cbn [r_drive_voltage r_ch1_raw r_ch2_raw r_ch1_current r_ch2_current].
    rewrite Lc1, Lc2, L0, L1, L2; repeat split; reflexivity.
  - intros i Hi.
    cbn [r_drive_voltage r_ch1_raw r_ch2_raw r_ch1_current r_ch2_current].
    assert (W : forall k, (k < 3)%nat ->
              nth i (slice_from_step3 k values) 0
              = sample_word data (3 * i + k)).
    { intros k Hk; apply nth_error_nth.
      rewrite slice_from_step3_nth; apply Hvn; lia. }
    rewrite (W 0%nat), (W 1%nat), (W 2%nat) by lia.
    replace (3 * i + 0)%nat with (3 * i)%nat by lia.
    repeat split; try reflexivity.
    + rewrite Nc1 by (rewrite L0; assumption).
      rewrite (W 0%nat), (W 1%nat) by lia.
      replace (3 * i + 0)%nat with (3 * i)%nat by lia; reflexivity.
    + rewrite Nc2 by (rewrite L0; assumption).
      rewrite (W 0%nat), (W 2%nat) by lia.
      replace (3 * i + 0)%nat with (3 * i)%nat by lia; reflexivity.
Qed.

(** Any other length is refused by the first check. *)
Lemma decode_bad_length (data : list byte) :
  length data <> 2016%nat -> decode data = Bad_length.
Proof.
  intros H; unfold decode.
  destruct (Nat.eqb_spec (length data) 2016); [contradiction | reflexivity].
Qed.
(** The decoding step has two ways out only. *)
Lemma process_frame_exits
  (store_as_weak : bool) (data : list byte) (self : App) :
  (length data <> 2016%nat
   /\ process_frame store_as_weak data self = (Frame_length, self))
  \/ (length data = 2016%nat
      /\ exists r, process_frame store_as_weak data self
                   = (Stored, store_data store_as_weak r self)).
Proof.
  unfold process_frame.
  destruct (Nat.eq_dec (length data) 2016) as [E|N].
  - right; split; [assumption|].
    destruct (decode_frame data E) as (r & -> & _).
    exists r; reflexivity.
  - left; split; [assumption|].
    rewrite (decode_bad_length data N); reflexivity.
Qed.
End DecodeFrame.

Section ParseWords.
Import Codec.

Lemma slice_two (data : list byte) (i : nat) (lo hi : byte) :
  slice data i (i + 2) = [lo; hi] ->
  nth i data x00 = lo /\ nth (i + 1) data x00 = hi.
Proof.
  unfold slice; replace (i + 2 - i)%nat with 2%nat by lia.
  revert i; induction data as [|b data IH]; intros i H.
  - rewrite skipn_nil in H; discriminate.
  - destruct i as [|i].
    + destruct data as [|c data]; [discriminate|].
      simpl in H; injection H as <- <-; split; reflexivity.
    + simpl in H; apply IH in H; exact H.
Qed.

Lemma parse_word_sound (data : list byte) (k : nat) (v : Z) :
  parse_word data (2 * k) = Some v -> v = sample_word data k.
Proof.
  unfold parse_word, sample_word, unpack_H.
  destruct (slice data (2 * k) (2 * k + 2)) as [|lo [|hi [|? ?]]] eqn:E;
    try discriminate.
  apply slice_two in E as [<- <-].
  simpl; intros H; injection H as <-; reflexivity.
Qed.

(** Whatever the parse loop returns, its [k]-th value is the masked word
    at byte offset [2 * k]. *)
Lemma parse_values_sound (data : list byte) (values : list Z) (k : nat) :
  parse_values data = Some values ->
  (k < length values)%nat ->
  nth k values 0 = sample_word data k.
Proof.
  unfold parse_values, range_step2; intros H Hk.
  pose proof (for_each_length _ _ H) as Hl.
  rewrite length_map, length_seq in Hl.
  apply parse_word_sound.
  rewrite <- (for_each_nth _ _ k (x := (2 * k)%nat) H).
  - apply nth_error_nth'; assumption.
  - rewrite nth_error_map, nth_error_seq.
    destruct (Nat.ltb_spec k (Nat.div2 (length data + 1)));
      [reflexivity | lia].
Qed.
End ParseWords.

(** ** Decoding a frame *)

(** C1. Every byte string of exactly 2016 bytes is decoded into three
    sequences [drive_voltage], [ch1_raw], [ch2_raw] of 336 values each, the
    1008 masked little-endian words split by index modulo 3 in acquisition
    order, and the derived currents satisfy
    [ch1_current[i] + ch1_raw[i] = drive_voltage[i]] and
    [ch2_current[i] + ch2_raw[i] = drive_voltage[i]] at every index. *)
Theorem decode_triplet_currents (data : list byte) :
  length data = 2016%nat ->
  exists r,
    Codec.decode data = Codec.Decoded r
    /\ length (Codec.r_drive_voltage r) = 336%nat
    /\ length (Codec.r_ch1_raw r) = 336%nat
    /\ length (Codec.r_ch2_raw r) = 336%nat
    /\ length (Codec.r_ch1_current r) = 336%nat
    /\ length (Codec.r_ch2_current r) = 336%nat
    /\ forall i, (i < 336)%nat ->
         nth i (Codec.r_drive_voltage r) 0 = Codec.sample_word data (3 * i)
         /\ nth i (Codec.r_ch1_raw r) 0 = Codec.sample_word data (3 * i + 1)
         /\ nth i (Codec.r_ch2_raw r) 0 = Codec.sample_word data (3 * i + 2)
         /\ nth i (Codec.r_ch1_current r) 0 + nth i (Codec.r_ch1_raw r) 0
            = nth i (Codec.r_drive_voltage r) 0
         /\ nth i (Codec.r_ch2_current r) 0 + nth i (Codec.r_ch2_raw r) 0
            = nth i (Codec.r_drive_voltage r) 0.
Proof.
  intros Hlen.
  destruct (decode_frame data Hlen) as (r & Hd & (L0 & L1 & L2 & L3 & L4) & Hn).
  exists r; repeat (split; [assumption|]).
  intros i Hi.
  destruct (Hn i Hi) as (W0 & W1 & W2 & C1 & C2).
  repeat (split; [assumption|]).
  split; lia.
Qed.

Lemma decode_triplet_currents_witness :
  exists r,
    Codec.decode (repeat x2a 2016) = Codec.Decoded r
    /\ length (Codec.r_drive_voltage r) = 336%nat
    /\ length (Codec.r_ch1_raw r) = 336%nat
    /\ length (Codec.r_ch2_raw r) = 336%nat
    /\ length (Codec.r_ch1_current r) = 336%nat
    /\ length (Codec.r_ch2_current r) = 336%nat
    /\ forall i, (i < 336)%nat ->
         nth i (Codec.r_drive_voltage r) 0
         = Codec.sample_word (repeat x2a 2016) (3 * i)
         /\ nth i (Codec.r_ch1_raw r) 0
            = Codec.sample_word (repeat x2a 2016) (3 * i + 1)
         /\ nth i (Codec.r_ch2_raw r) 0
            = Codec.sample_word (repeat x2a 2016) (3 * i + 2)
         /\ nth i (Codec.r_ch1_current r) 0 + nth i (Codec.r_ch1_raw r) 0
            = nth i (Codec.r_drive_voltage r) 0
         /\ nth i (Codec.r_ch2_current r) 0 + nth i (Codec.r_ch2_raw r) 0
            = nth i (Codec.r_drive_voltage r) 0.
Proof.
  apply (decode_triplet_currents (repeat x2a 2016)).
  vm_compute; reflexivity.
Defined.

(** C4. The decoding step of [acquire] fails exactly when the payload is
    not 2016 bytes long: any other length (0, 2015, 2017, ...) leaves through
    the length check with the state untouched, and a payload of 2016 bytes
    is stored; the word-count check and the exception handler are never
    reached from this step. *)
Theorem process_frame_fails_iff_bad_length
  (store_as_weak : bool) (data : list byte) (self : App) :
  (returned (fst (process_frame store_as_weak data self)) = false
   <-> length data <> 2016%nat)
  /\ (length data <> 2016%nat ->
      process_frame store_as_weak data self = (Frame_length, self))
  /\ (length data = 2016%nat ->
      exists r, Codec.decode data = Codec.Decoded r
                /\ process_frame store_as_weak data self
                   = (Stored, store_data store_as_weak r self))
  /\ fst (process_frame store_as_weak data self) <> Word_count
  /\ fst (process_frame store_as_weak data self) <> Parse_raised.
Proof.
  unfold process_frame.
  destruct (Nat.eq_dec (length data) 2016) as [E|N].
  - destruct (decode_frame data E) as (r & -> & _).
    cbn [fst returned].
    repeat split; try discriminate; try contradiction.
    intros _; exists r; split; reflexivity.
  - rewrite (decode_bad_length data N); cbn [fst returned].
    repeat split; try discriminate; try contradiction; auto.
Qed.

Lemma process_frame_fails_iff_bad_length_witness :
  process_frame true (repeat x00 2015) (init None)
    = (Frame_length, init None)
  /\ process_frame false (repeat x00 2017) (init None)
    = (Frame_length, init None)
  /\ process_frame false [] (init None) = (Frame_length, init None)
  /\ exists r, Codec.decode (repeat x00 2016) = Codec.Decoded r
               /\ process_frame true (repeat x00 2016) (init None)
                  = (Stored, store_data true r (init None)).
Proof.
  split; [|split; [|split]].
  - apply (process_frame_fails_iff_bad_length true (repeat x00 2015) (init None)).
    vm_compute; discriminate.
  - apply (process_frame_fails_iff_bad_length false (repeat x00 2017)
             (init None)).
    vm_compute; discriminate.
  - apply (process_frame_fails_iff_bad_length false [] (init None)).
    vm_compute; discriminate.
  - apply (process_frame_fails_iff_bad_length true (repeat x00 2016)
             (init None)).
    vm_compute; reflexivity.
Defined.

(** C9. Every decoded sample word is the low 12 bits of its 16-bit
    little-endian word and lies in [0, 4095]; the word with raw bits 0xFFFF
    decodes to 0x0FFF and the word with raw bits 0x1000 decodes to 0. *)
Theorem sample_word_masking :
  (forall (data : list byte) (values : list Z) (k : nat),
      Codec.parse_values data = Some values ->
      (k < length values)%nat ->
      nth k values 0
      = (Codec.byte_val (nth (2 * k) data x00)
         + 256 * Codec.byte_val (nth (2 * k + 1) data x00)) mod 2 ^ 12
      /\ 0 <= nth k values 0 <= 4095)
  /\ Codec.parse_values [xff; xff] = Some [0x0FFF]
  /\ Codec.parse_values [x00; x10] = Some [0x0000].
Proof.
  split; [|split; reflexivity].
  intros data values k H Hk.
  rewrite (@parse_values_sound data values k H Hk).
  split; [|apply sample_word_range].
  unfold Codec.sample_word; apply land_0FFF.
Qed.

Lemma sample_word_masking_witness :
  nth 1 [0x0234; 0x0FFF] 0
  = (Codec.byte_val (nth 2 [x34; x12; xff; xff] x00)
     + 256 * Codec.byte_val (nth 3 [x34; x12; xff; xff] x00)) mod 2 ^ 12
  /\ 0 <= nth 1 [0x0234; 0x0FFF] 0 <= 4095.
Proof.
  apply (proj1 sample_word_masking [x34; x12; xff; xff] [0x0234; 0x0FFF] 1%nat).
  - vm_compute; reflexivity.
  - simpl; lia.
Defined.

(** ** [acquire]: outcomes and the sample store *)

Section AcquireFacts.

Lemma determine_command_cases (self : App) :
  let '(_, store_as_weak, self1) := determine_command self in
  serial self1 = serial self
  /\ sample_store self1 = sample_store self
  /\ excitation_mode self1 = excitation_mode self
  /\ (zoom_level self1, pan_offset_x self1, pan_offset_y self1)
     = (zoom_level self, pan_offset_x self, pan_offset_y self)
  /\ (excitation_mode self = 2 ->
      store_as_weak = alt_use_weak self
      /\ alt_use_weak self1 = negb (alt_use_weak self))
  /\ (excitation_mode self = 0 \/ excitation_mode self = 1 -> self1 = self).
Proof.
  unfold determine_command.
  destruct (Z.eqb_spec (excitation_mode self) 0) as [E0|N0];
    [repeat split; try reflexivity; lia|].
  destruct (Z.eqb_spec (excitation_mode self) 1) as [E1|N1];
    [repeat split; try reflexivity; lia|].
  destruct (alt_use_weak self) eqn:Ea; cbn;
    repeat split; try reflexivity; try lia.
Qed.

(** A call that returns [True]: the port was open, a frame of 2016 bytes
    was received and decoded, and the reading was stored. *)
Lemma acquire_stored (port : Port) (self self' : App) :
  acquire port self = (Stored, self') ->
  exists command self1 data r,
    serial_is_open self = true
    /\ determine_command self = (command, requests_weak self, self1)
    /\ request_frame port command = Some data
    /\ Codec.decode data = Codec.Decoded r
    /\ self' = store_data (requests_weak self) r self1.
Proof.
  unfold acquire, requests_weak.
  destruct (serial_is_open self); cbn [negb]; [|discriminate].
  destruct (determine_command self) as [[command saw] self1].
  destruct (request_frame port command) as [data|] eqn:Er; [|discriminate].
  unfold process_frame.
  destruct (Codec.decode data) as [r| | |] eqn:Ed; try discriminate.
  intros H; injection H as <-.
  exists command, self1, data, r; cbn [fst snd]; repeat split; assumption.
Qed.

(** A call that returns [False] leaves the state as it was, or as
    "Determine command" left it. *)
Lemma acquire_failed (port : Port) (self : App) :
  returned (fst (acquire port self)) = false ->
  snd (acquire port self) = self
  \/ (serial_is_open self = true
      /\ snd (acquire port self) = snd (determine_command self)).
Proof.
  unfold acquire.
  destruct (serial_is_open self); cbn [negb]; [|left; reflexivity].
  destruct (determine_command self) as [[command saw] self1].
  destruct (request_frame port command) as [data|];
    [|right; split; reflexivity].
  unfold process_frame.
  destruct (Codec.decode data) as [r| | |]; cbn [fst snd returned];
    intros H; try discriminate; right; split; reflexivity.
Qed.

(** The polling loop never collects more than 2016 bytes. *)
Lemma read_loop_length (ps : list poll) :
  forall data data',
    (length data <= 2016)%nat ->
    read_loop ps data = Some data' ->
    (length data' <= 2016)%nat.
Proof.
  induction ps as [|p ps IH]; intros data data' Hl H.
  - cbn [read_loop] in H.
    destruct (length data <? 2016)%nat; injection H as <-; assumption.
  - cbn [read_loop] in H.
    destruct (Nat.ltb_spec (length data) 2016);
      [|injection H as <-; assumption].
    destruct p as [|buf|]; [injection H as <-; assumption | | discriminate].
    destruct (0 <? length buf)%nat; [|eapply IH; eassumption].
    eapply IH; [|eassumption].
    rewrite length_app, length_firstn; lia.
Qed.
(** Decoding and storing do not touch the alternation toggle. *)
Lemma process_frame_keeps_toggle
  (store_as_weak : bool) (data : list byte) (self : App) :
  alt_use_weak (snd (process_frame store_as_weak data self))
  = alt_use_weak self.
Proof.
  unfold process_frame.
  destruct (Codec.decode data) as [r| | |]; cbn [snd]; try reflexivity.
  destruct store_as_weak; reflexivity.
Qed.

Lemma request_frame_length (port : Port) (command : byte) (data : list byte) :
  request_frame port command = Some data -> (length data <= 2016)%nat.
Proof.
  unfold request_frame.
  destruct (reset_input_buffer_ok port); cbn [negb]; [|discriminate].
  destruct (write_ok port command); cbn [negb]; [|discriminate].
  apply read_loop_length; cbn [length]; lia.
Qed.

(** Which exit a call takes is decided by the port state and by what the
    device delivered: no open port; an exception during serial I/O; fewer
    than 2016 bytes before the deadline; or a full frame, which is always
    stored.  The word-count check and an exception while parsing are never
    the way out. *)
Lemma acquire_outcome (port : Port) (self : App) :
  let command := fst (fst (determine_command self)) in
  match fst (acquire port self) with
  | Not_connected => serial_is_open self = false
  | Transport_raised =>
      serial_is_open self = true /\ request_frame port command = None
  | Frame_length =>
      serial_is_open self = true
      /\ exists data, request_frame port command = Some data
                      /\ (length data < 2016)%nat
  | Stored =>
      serial_is_open self = true
      /\ exists data, request_frame port command = Some data
                      /\ length data = 2016%nat
  | Word_count | Parse_raised => False
  end.
Proof.
  unfold acquire; cbv zeta.
  destruct (serial_is_open self); cbn [negb fst]; [|reflexivity].
  destruct (determine_command self) as [[command saw] self1]; cbn [fst].
  destruct (request_frame port command) as [data|] eqn:Er; cbn [fst];
    [|split; reflexivity].
  pose proof (request_frame_length _ _ Er) as Hle.
  destruct (process_frame_exits saw data self1)
    as [[Hlen ->] | [Hlen (r & ->)]]; cbn [fst];
    (split; [reflexivity | exists data; split; [reflexivity | lia]]).
Qed.
End AcquireFacts.

(** C2, as written in the specification, fails: in Alternating mode a call
    of [acquire] on an open port that times out with no byte received
    returns [False], and [alt_use_weak] has flipped all the same. *)
Lemma toggle_flips_on_timeout :
  excitation_mode alternating_app = 2
  /\ serial_is_open alternating_app = true
  /\ acquire silent_port alternating_app
     = (Frame_length, set_alt_use_weak true alternating_app)
  /\ returned (fst (acquire silent_port alternating_app)) = false
  /\ alt_use_weak alternating_app = false
  /\ alt_use_weak (snd (acquire silent_port alternating_app)) = true.
Proof. vm_compute; repeat split; reflexivity. Qed.

(** C2 (amended). In Alternating mode [alt_use_weak] flips in every call
    of [acquire] made with an open serial port: when the acquisition
    succeeds, and also when it fails by timeout, wrong frame length or
    transport error.  It keeps its value only when no port is open. *)
Theorem alt_toggle_flips_on_every_attempt (port : Port) (self : App) :
  excitation_mode self = 2 ->
  (returned (fst (acquire port self)) = true ->
   alt_use_weak (snd (acquire port self)) = negb (alt_use_weak self))
  /\ (serial_is_open self = true ->
      returned (fst (acquire port self)) = false ->
      alt_use_weak (snd (acquire port self)) = negb (alt_use_weak self))
  /\ (serial_is_open self = false ->
      returned (fst (acquire port self)) = false
      /\ alt_use_weak (snd (acquire port self)) = alt_use_weak self).
Proof.
  intros Hmode.
  pose proof (determine_command_cases self) as Hd.
  unfold acquire.
  destruct (serial_is_open self); cbn [negb].
  - destruct (determine_command self) as [[command saw] self1].
    destruct Hd as (_ & _ & _ & _ & Halt & _).
    destruct (Halt Hmode) as [_ Hflip].
    destruct (request_frame port command) as [data|];
      cbn [fst snd returned];
      rewrite ?process_frame_keeps_toggle;
      repeat split; auto; discriminate.
  - cbn [fst snd returned]; repeat split; discriminate.
Qed.

Lemma alt_toggle_flips_on_every_attempt_witness :
  (returned (fst (acquire (steady_port x07) alternating_app)) = true ->
   alt_use_weak (snd (acquire (steady_port x07) alternating_app))
   = negb (alt_use_weak alternating_app))
  /\ (serial_is_open alternating_app = true ->
      returned (fst (acquire (steady_port x07) alternating_app)) = false ->
      alt_use_weak (snd (acquire (steady_port x07) alternating_app))
      = negb (alt_use_weak alternating_app))
  /\ (serial_is_open alternating_app = false ->
      returned (fst (acquire (steady_port x07) alternating_app)) = false
      /\ alt_use_weak (snd (acquire (steady_port x07) alternating_app))
         = alt_use_weak alternating_app).
Proof.
  apply (alt_toggle_flips_on_every_attempt (steady_port x07) alternating_app).
  vm_compute; reflexivity.
Defined.

(** C3. A call of [acquire] that fails, for whatever reason (no open port,
    a transport exception, fewer than 2016 bytes before the deadline or any
    payload whose length is not 2016, a wrong word count, an exception while
    parsing), returns [False] and leaves every per-variant buffer, the
    active series and the last-variant flag exactly as they were. *)
Theorem acquire_failure_keeps_store (port : Port) (self : App) :
  fst (acquire port self) <> Stored ->
  returned (fst (acquire port self)) = false
  /\ sample_store (snd (acquire port self)) = sample_store self.
Proof.
  intros Hne.
  assert (Hr : returned (fst (acquire port self)) = false)
    by (destruct (fst (acquire port self)); try reflexivity; contradiction).
  split; [assumption|].
  destruct (acquire_failed port self Hr) as [-> | [_ ->]]; [reflexivity|].
  pose proof (determine_command_cases self) as Hd.
  destruct (determine_command self) as [[command saw] self1].
  destruct Hd as (_ & Hs & _); exact Hs.
Qed.

Lemma acquire_failure_keeps_store_witness :
  returned (fst (acquire silent_port alternating_app)) = false
  /\ sample_store (snd (acquire silent_port alternating_app))
     = sample_store alternating_app.
Proof.
  apply (acquire_failure_keeps_store silent_port alternating_app).
  vm_compute; discriminate.
Defined.

(** C10. With no open serial connection ([self.serial] is [None] or is
    closed) [acquire] returns [False] at once and the whole application
    state is unchanged: buffers, active series, last-variant flag and
    [alt_use_weak], in every excitation mode. *)
Theorem acquire_without_connection (port : Port) (self : App) :
  serial_is_open self = false ->
  acquire port self = (Not_connected, self)
  /\ returned (fst (acquire port self)) = false.
Proof.
  intros H; unfold acquire; rewrite H; split; reflexivity.
Qed.

Lemma acquire_without_connection_witness :
  acquire (steady_port x07) (set_serial (Some (mkSerial false)) alternating_app)
  = (Not_connected, set_serial (Some (mkSerial false)) alternating_app)
  /\ returned (fst (acquire (steady_port x07)
                 (set_serial (Some (mkSerial false)) alternating_app))) = false.
Proof.
  apply (acquire_without_connection (steady_port x07)
           (set_serial (Some (mkSerial false)) alternating_app)).
  reflexivity.
Defined.

Section StoreFacts.

Lemma store_data_weak (r : Codec.Reading) (self : App) :
  let self' := store_data true r self in
  weak_buffers self' = reading_series r
  /\ active_series self' = weak_buffers self'
  /\ std_buffers self' = std_buffers self
  /\ last_mode_was_weak self' = true
  /\ alt_use_weak self' = alt_use_weak self
  /\ excitation_mode self' = excitation_mode self
  /\ serial self' = serial self.
Proof. cbv zeta; repeat split. Qed.

Lemma store_data_std (r : Codec.Reading) (self : App) :
  let self' := store_data false r self in
  std_buffers self' = reading_series r
  /\ active_series self' = std_buffers self'
  /\ weak_buffers self' = weak_buffers self
  /\ last_mode_was_weak self' = false
  /\ alt_use_weak self' = alt_use_weak self
  /\ excitation_mode self' = excitation_mode self
  /\ serial self' = serial self.
Proof. cbv zeta; repeat split. Qed.

Lemma sample_store_std (a b : App) :
  sample_store a = sample_store b -> std_buffers a = std_buffers b.
Proof. unfold sample_store; congruence. Qed.

Lemma sample_store_weak (a b : App) :
  sample_store a = sample_store b -> weak_buffers a = weak_buffers b.
Proof. unfold sample_store; congruence. Qed.

(** What a successful call does to the store, by requested variant. *)
Lemma acquire_stored_effect (port : Port) (self self' : App) :
  acquire port self = (Stored, self') ->
  exists data r,
    length data = 2016%nat
    /\ Codec.decode data = Codec.Decoded r
    /\ active_series self' = reading_series r
    /\ last_mode_was_weak self' = requests_weak self
    /\ excitation_mode self' = excitation_mode self
    /\ serial self' = serial self
    /\ (excitation_mode self = 2 ->
        alt_use_weak self' = negb (alt_use_weak self))
    /\ if requests_weak self
       then weak_buffers self' = reading_series r
            /\ std_buffers self' = std_buffers self
       else std_buffers self' = reading_series r
            /\ weak_buffers self' = weak_buffers self.
Proof.
  intros H.
  destruct (acquire_stored _ _ H) as (command & self1 & data & r & Ho & Hd
                                      & Hr & Hdec & ->).
  pose proof (determine_command_cases self) as Hc; rewrite Hd in Hc.
  destruct Hc as (Hser & Hs & Hm & _ & Halt & _).
  exists data, r.
  split.
  { destruct (Nat.eq_dec (length data) 2016) as [E|N]; [assumption|].
    rewrite (decode_bad_length data N) in Hdec; discriminate. }
  split; [assumption|].
  destruct (requests_weak self).
  - destruct (store_data_weak r self1) as (Hw & Ha & Hstd & Hl & Hau & Hmo & Hse).
    rewrite Ha, Hw, Hl, Hmo, Hm, Hse, Hser, Hau, Hstd.
    repeat split; try reflexivity.
    + intros E; apply (Halt E).
    + apply sample_store_std; assumption.
  - destruct (store_data_std r self1) as (Hw & Ha & Hwk & Hl & Hau & Hmo & Hse).
    rewrite Ha, Hw, Hl, Hmo, Hm, Hse, Hser, Hau, Hwk.
    repeat split; try reflexivity.
    + intros E; apply (Halt E).
    + apply sample_store_weak; assumption.
Qed.

Lemma requests_weak_alternating (self : App) :
  excitation_mode self = 2 -> requests_weak self = alt_use_weak self.
Proof.
  intros E; unfold requests_weak.
  pose proof (determine_command_cases self) as Hc.
  destruct (determine_command self) as [[command saw] self1].
  destruct Hc as (_ & _ & _ & _ & Halt & _).
  destruct (Halt E) as [-> _]; reflexivity.
Qed.
End StoreFacts.

(** C7. In Alternating mode the active series is the buffer set of the
    variant stored last: right after a successful Weak acquisition the
    active drive-voltage, voltage and current series are the Weak buffers,
    whatever the Strong buffers hold and whenever they were stored, and
    after the next successful acquisition, which is a Strong one, they are
    the Strong buffers. *)
Theorem alternating_active_follows_last_variant
  (port1 port2 : Port) (self s1 s2 : App) :
  excitation_mode self = 2 ->
  alt_use_weak self = true ->
  acquire port1 self = (Stored, s1) ->
  acquire port2 s1 = (Stored, s2) ->
  (active_series s1 = weak_buffers s1
   /\ last_mode_was_weak s1 = true
   /\ std_buffers s1 = std_buffers self)
  /\ (active_series s2 = std_buffers s2
      /\ last_mode_was_weak s2 = false
      /\ weak_buffers s2 = weak_buffers s1).
Proof.
  intros Hmode Halt H1 H2.
  destruct (acquire_stored_effect _ _ H1)
    as (d1 & r1 & _ & _ & Ha1 & Hl1 & Hm1 & _ & Hf1 & Hb1).
  destruct (acquire_stored_effect _ _ H2)
    as (d2 & r2 & _ & _ & Ha2 & Hl2 & _ & _ & _ & Hb2).
  rewrite (requests_weak_alternating self Hmode), Halt in Hl1, Hb1.
  assert (Halt1 : alt_use_weak s1 = false)
    by (rewrite (Hf1 Hmode), Halt; reflexivity).
  rewrite (requests_weak_alternating s1 (eq_trans Hm1 Hmode)), Halt1
    in Hl2, Hb2.
  destruct Hb1 as [Hw1 Hs1]; destruct Hb2 as [Hs2 Hw2].
  repeat split; try assumption; congruence.
Qed.

Lemma alternating_active_follows_last_variant_witness :
  let self := snd (acquire (steady_port x01) alternating_app) in
  let s1 := snd (acquire (steady_port x02) self) in
  let s2 := snd (acquire (steady_port x03) s1) in
  (active_series s1 = weak_buffers s1
   /\ last_mode_was_weak s1 = true
   /\ std_buffers s1 = std_buffers self)
  /\ (active_series s2 = std_buffers s2
      /\ last_mode_was_weak s2 = false
      /\ weak_buffers s2 = weak_buffers s1).
Proof.
  cbv zeta.
  apply (@alternating_active_follows_last_variant
           (steady_port x02) (steady_port x03)
           (snd (acquire (steady_port x01) alternating_app)));
    vm_compute; reflexivity.
Defined.

(** C8. Storing a reading overwrites the buffers of its variant only: a
    successful Weak acquisition leaves the five Strong buffers unchanged, a
    successful Strong acquisition leaves the five Weak buffers unchanged,
    the stored variant's buffers become the decoded reading, and the
    last-variant flag becomes the stored variant. *)
Theorem acquire_overwrites_one_variant (port : Port) (self self' : App) :
  acquire port self = (Stored, self') ->
  exists data r,
    Codec.decode data = Codec.Decoded r
    /\ last_mode_was_weak self' = requests_weak self
    /\ (requests_weak self = true ->
        weak_buffers self' = reading_series r
        /\ ch1_std self' = ch1_std self
        /\ ch2_std self' = ch2_std self
        /\ ch1_voltage_std self' = ch1_voltage_std self
        /\ ch2_voltage_std self' = ch2_voltage_std self
        /\ drive_voltage_std self' = drive_voltage_std self)
    /\ (requests_weak self = false ->
        std_buffers self' = reading_series r
        /\ ch1_weak self' = ch1_weak self
        /\ ch2_weak self' = ch2_weak self
        /\ ch1_voltage_weak self' = ch1_voltage_weak self
        /\ ch2_voltage_weak self' = ch2_voltage_weak self
        /\ drive_voltage_weak self' = drive_voltage_weak self).
Proof.
  intros H.
  destruct (acquire_stored_effect _ _ H)
    as (data & r & _ & Hdec & _ & Hl & _ & _ & _ & Hb).
  exists data, r.
  split; [assumption|]; split; [assumption|].
  destruct (requests_weak self); destruct Hb as [Hnew Hold];
    split; intros E; try discriminate;
    (split; [assumption|]);
    unfold std_buffers, weak_buffers in Hold;
    injection Hold as -> -> -> -> ->; repeat split.
Qed.

Lemma acquire_overwrites_one_variant_witness :
  let self := snd (acquire (steady_port x01) alternating_app) in
  let self' := snd (acquire (steady_port x02) self) in
  exists data r,
    Codec.decode data = Codec.Decoded r
    /\ last_mode_was_weak self' = requests_weak self
    /\ (requests_weak self = true ->
        weak_buffers self' = reading_series r
        /\ ch1_std self' = ch1_std self
        /\ ch2_std self' = ch2_std self
        /\ ch1_voltage_std self' = ch1_voltage_std self
        /\ ch2_voltage_std self' = ch2_voltage_std self
        /\ drive_voltage_std self' = drive_voltage_std self)
    /\ (requests_weak self = false ->
        std_buffers self' = reading_series r
        /\ ch1_weak self' = ch1_weak self
        /\ ch2_weak self' = ch2_weak self
        /\ ch1_voltage_weak self' = ch1_voltage_weak self
        /\ ch2_voltage_weak self' = ch2_voltage_weak self
        /\ drive_voltage_weak self' = drive_voltage_weak self).
Proof.
  cbv zeta.
  apply (@acquire_overwrites_one_variant (steady_port x02)
           (snd (acquire (steady_port x01) alternating_app))).
  vm_compute; reflexivity.
Defined.

(** ** Minimum and maximum of a list *)

Section ListExtrema.






End ListExtrema.

(** ** Zoom factors and the fixed-scale viewport *)

Section ViewFacts.
Import View.
Local Open Scope Q_scope.














End ViewFacts.

Section FitFacts.
Import View.
Local Open Scope Q_scope.







End FitFacts.

Section Binary64.
Import PrimFloat.

End Binary64.



(** ** The zoom level never drops below 0.1 *)

Section ZoomInvariant.
Import View.















End ZoomInvariant.



(** * Further properties *)

Unset Implicit Arguments.

Lemma firstn_app_firstn {A : Type} (n : nat) (l1 l2 : list A) :
  firstn n (l1 ++ l2) = firstn n (l1 ++ firstn (n - length l1) l2).
Proof.
  rewrite !firstn_app, firstn_firstn.
  f_equal; f_equal; lia.
Qed.

Lemma read_loop_collects (ps : list poll) :
  forall acc data,
    (length acc <= 2016)%nat ->
    read_loop ps acc = Some data ->
    data = firstn 2016 (acc ++ offered ps).
Proof.
  induction ps as [|p ps IH]; intros acc data Hacc H; cbn [read_loop] in H.
  - assert (data = acc) by (destruct (length acc <? 2016)%nat; congruence).
    subst; cbn [offered]; rewrite app_nil_r, firstn_all2; auto.
  - destruct (Nat.ltb_spec (length acc) 2016) as [Hlt|Hge].
    + destruct p as [|buf|]; [| |discriminate].
      * injection H as <-; cbn [offered].
        rewrite app_nil_r, firstn_all2; auto.
      * cbn [offered].
        destruct (Nat.ltb_spec 0 (length buf)) as [Hb|Hb].
        -- assert (Hl : (length (acc ++ firstn (Nat.min (length buf)
                            (2016 - length acc)) buf) <= 2016)%nat)
             by (rewrite length_app, length_firstn; clear - Hlt; lia).
           apply (IH _ _ Hl) in H.
           rewrite H; clear H IH.
           destruct (Nat.le_gt_cases (length buf) (2016 - length acc))
             as [Hfit|Hcut].
           ++ rewrite Nat.min_l, firstn_all, app_assoc by assumption.
              reflexivity.
           ++ rewrite Nat.min_r by lia.
              rewrite <- app_assoc.
              rewrite !(firstn_app 2016 acc), !firstn_app, firstn_firstn.
              rewrite length_firstn.
              replace (2016 - length acc
                       - Nat.min (2016 - length acc) (length buf))%nat
                with 0%nat by lia.
              replace (2016 - length acc - length buf)%nat with 0%nat by lia.
              rewrite Nat.min_id, !firstn_O, !app_nil_r.
              reflexivity.
        -- destruct buf; [|cbn in Hb; lia].
           cbn [app]; apply IH; assumption.
    + injection H as <-.
      rewrite firstn_app.
      replace (2016 - length acc)%nat with 0%nat by lia.
      rewrite firstn_O, app_nil_r, firstn_all2; auto; lia.
Qed.

Lemma poll_fails_full (ps : list poll) (n : nat) :
  (2016 <= n)%nat -> poll_fails ps n = false.
Proof.
  intros H; destruct ps; cbn [poll_fails];
    destruct (Nat.ltb_spec n 2016); try reflexivity; lia.
Qed.

Lemma read_loop_full (ps : list poll) (acc : list byte) :
  (2016 <= length acc)%nat -> read_loop ps acc = Some acc.
Proof.
  intros H; destruct ps; cbn [read_loop];
    destruct (Nat.ltb_spec (length acc) 2016); try reflexivity; lia.
Qed.

Lemma read_loop_raises (ps : list poll) :
  forall acc,
    (length acc <= 2016)%nat ->
    (read_loop ps acc = None <-> poll_fails ps (length acc) = true).
Proof.
  induction ps as [|p ps IH]; intros acc Hacc;
    cbn [read_loop poll_fails].
  - destruct (length acc <? 2016)%nat; split; discriminate.
  - destruct (Nat.ltb_spec (length acc) 2016) as [Hlt|Hge];
      [|split; discriminate].
    destruct p as [|buf|]; [split; discriminate | | split; reflexivity].
    destruct (Nat.ltb_spec 0 (length buf)) as [Hb|Hb].
    + destruct (Nat.le_gt_cases (length buf) (2016 - length acc))
        as [Hfit|Hcut].
      * rewrite Nat.min_l, firstn_all by assumption.
        rewrite IH by (rewrite length_app; clear - Hfit Hlt; lia).
        rewrite length_app; reflexivity.
      * rewrite read_loop_full
          by (rewrite length_app, length_firstn; clear - Hcut Hlt; lia).
        rewrite poll_fails_full by (clear - Hcut Hlt; lia).
        split; discriminate.
    + destruct buf; [|cbn in Hb; lia].
      cbn [length]; rewrite Nat.add_0_r; apply IH; assumption.
Qed.

(** X2. The polling loop hands over exactly the first 2016 bytes the device
    delivered, in order, however they were split into reads; it raises
    exactly when a poll fails before the frame is complete. *)
Theorem request_frame_reassembles (port : Port) (command : byte) :
  request_frame port command
  = if reset_input_buffer_ok port && write_ok port command
       && negb (poll_fails (polls port command) 0)
    then Some (firstn 2016 (offered (polls port command)))
    else None.
Proof.
  unfold request_frame.
  destruct (reset_input_buffer_ok port); cbn [negb andb]; [|reflexivity].
  destruct (write_ok port command); cbn [negb andb]; [|reflexivity].
  pose proof (@read_loop_raises (polls port command) [] ltac:(cbn; lia))
    as Hn.
  cbn [length] in Hn.
  destruct (read_loop (polls port command) []) as [data|] eqn:E.
  - destruct (poll_fails (polls port command) 0).
    + destruct Hn as [_ Hn]; discriminate (Hn eq_refl).
    + cbn [negb]; f_equal.
      apply (@read_loop_collects _ [] data) in E; [exact E | cbn; lia].
  - destruct Hn as [Hn _]; rewrite (Hn eq_refl); reflexivity.
Qed.

Lemma acquire_keeps_controls (port : Port) (self : App) :
  controls (snd (acquire port self)) = controls self.
Proof.
  unfold acquire.
  destruct (serial_is_open self); cbn [negb]; [|reflexivity].
  unfold determine_command.
  destruct (excitation_mode self =? 0);
    [|destruct (excitation_mode self =? 1); [|destruct (alt_use_weak self)]];
    cbv iota beta;
    match goal with
    | |- context [request_frame port ?c] =>
        destruct (request_frame port c) as [data|]; [|reflexivity]
    end;
    unfold process_frame;
    destruct (Codec.decode data); reflexivity.
Qed.

Lemma acquire_keeps_open (port : Port) (self : App) :
  serial_is_open (snd (acquire port self)) = serial_is_open self.
Proof.
  pose proof (acquire_keeps_controls port self) as H.
  unfold controls in H; unfold serial_is_open.
  injection H as H _ _ _ _ _ _ _ _ _; rewrite H; reflexivity.
Qed.

Lemma acquire_keeps_mode (port : Port) (self : App) :
  excitation_mode (snd (acquire port self)) = excitation_mode self.
Proof.
  pose proof (acquire_keeps_controls port self) as H.
  unfold controls in H; congruence.
Qed.

Lemma acquire_toggle (port : Port) (self : App) :
  serial_is_open self = true ->
  alt_use_weak (snd (acquire port self))
  = if excitation_mode self =? 2 then negb (alt_use_weak self)
    else if (excitation_mode self =? 0) || (excitation_mode self =? 1)
         then alt_use_weak self
         else negb (alt_use_weak self).
Proof.
  intros Ho; unfold acquire; rewrite Ho; cbn [negb].
  unfold determine_command.
  destruct (Z.eqb_spec (excitation_mode self) 0) as [E0|N0];
    [rewrite E0; cbn|
     destruct (Z.eqb_spec (excitation_mode self) 1) as [E1|N1];
     [rewrite E1; cbn|]].
  - destruct (request_frame port cmd_T); [|reflexivity].
    apply process_frame_keeps_toggle.
  - destruct (request_frame port cmd_W); [|reflexivity].
    apply process_frame_keeps_toggle.
  - cbn [orb].
    assert (E : (if excitation_mode self =? 2
                 then negb (alt_use_weak self) else negb (alt_use_weak self))
                = negb (alt_use_weak self))
      by (destruct (excitation_mode self =? 2); reflexivity).
    rewrite E; clear E.
    destruct (alt_use_weak self); cbv iota beta;
      match goal with
      | |- context [request_frame port ?c] =>
          destruct (request_frame port c) as [data|]; [|reflexivity]
      end;
      rewrite process_frame_keeps_toggle; reflexivity.
Qed.

Lemma command_of_cases (self : App) :
  command_of self
  = if excitation_mode self =? 0 then cmd_T
    else if excitation_mode self =? 1 then cmd_W
    else if alt_use_weak self then cmd_W else cmd_T.
Proof.
  unfold command_of, determine_command.
  destruct (excitation_mode self =? 0); [reflexivity|].
  destruct (excitation_mode self =? 1); [reflexivity|].
  destruct (alt_use_weak self); reflexivity.
Qed.

(** X3. The command sequence.  With an open port, Strong mode asks for 'T'
    at every call and Weak mode for 'W'; Alternating mode alternates
    between the two at every call, whether or not the calls succeed,
    starting with 'W' when [alt_use_weak] is set and with 'T' otherwise. *)
Theorem commands_by_mode (ports : list Port) (self : App) :
  serial_is_open self = true ->
  (excitation_mode self = 0 ->
   commands_requested ports self = repeat cmd_T (length ports))
  /\ (excitation_mode self = 1 ->
      commands_requested ports self = repeat cmd_W (length ports))
  /\ (excitation_mode self = 2 ->
      forall k, (k < length ports)%nat ->
        nth k (commands_requested ports self) cmd_T
        = if xorb (alt_use_weak self) (Nat.odd k) then cmd_W else cmd_T).
Proof.
  revert self; induction ports as [|port ports IH]; intros self Ho.
  - repeat split; try reflexivity; intros _ k Hk; cbn in Hk; lia.
  - destruct (IH (snd (acquire port self)))
      as (IH0 & IH1 & IH2); [rewrite acquire_keeps_open; exact Ho|].
    rewrite acquire_keeps_mode in IH0, IH1, IH2.
    cbn [commands_requested length repeat].
    rewrite command_of_cases.
    repeat split.
    + intros E; rewrite (IH0 E), E; reflexivity.
    + intros E; rewrite (IH1 E), E; reflexivity.
    + intros E k Hk; rewrite E; cbn [Z.eqb Pos.eqb].
      destruct k as [|k].
      * cbn [nth Nat.odd]; rewrite xorb_false_r; reflexivity.
      * cbn [nth]; rewrite (IH2 E k) by lia.
        rewrite (acquire_toggle port self Ho), E; cbn [Z.eqb Pos.eqb].
        rewrite Nat.odd_succ, <- Nat.negb_odd.
        destruct (alt_use_weak self), (Nat.odd k); reflexivity.
Qed.

Lemma commands_by_mode_witness :
  nth 3 (commands_requested
           [silent_port; steady_port x01; silent_port; ramp_port;
            steady_port x02] alternating_app) cmd_T
  = if xorb (alt_use_weak alternating_app) (Nat.odd 3)
    then cmd_W else cmd_T.
Proof.
  apply (commands_by_mode
           [silent_port; steady_port x01; silent_port; ramp_port;
            steady_port x02] alternating_app).
  - reflexivity.
  - reflexivity.
  - cbn; lia.
Defined.



(** ** Invariants of the sample store *)

Section StoreInvariant.

Lemma series_well_formed_empty :
  series_well_formed ([], [], [], [], []).
Proof.
  cbn; repeat split; auto; lia.
Qed.

Lemma acquire_failed_store (port : Port) (self : App) :
  returned (fst (acquire port self)) = false ->
  sample_store (snd (acquire port self)) = sample_store self.
Proof.
  intros Hr.
  destruct (acquire_failed port self Hr) as [-> | [_ ->]]; [reflexivity|].
  pose proof (determine_command_cases self) as Hd.
  destruct (determine_command self) as [[command saw] self1].
  destruct Hd as (_ & Hs & _); exact Hs.
Qed.

Lemma reading_well_formed (data : list byte) (r : Codec.Reading) :
  Codec.decode data = Codec.Decoded r ->
  series_well_formed (reading_series r).
Proof.
  intros Hd.
  destruct (Nat.eq_dec (length data) 2016) as [E|N];
    [|rewrite (decode_bad_length data N) in Hd; discriminate].
  destruct (decode_frame data E)
    as (r' & Hd' & (L0 & L1 & L2 & L3 & L4) & Hn).
  rewrite Hd in Hd'; injection Hd' as <-.
  unfold series_well_formed, reading_series.
  rewrite L0, L1, L2, L3, L4.
  repeat split; auto;
    match goal with
    | Hi : (_ < 336)%nat |- _ =>
        destruct (Hn _ Hi) as (_ & _ & _ & C1 & C2); lia
    end.
Qed.

Lemma store_well_formed_store (a b : App) :
  sample_store a = sample_store b ->
  store_well_formed b -> store_well_formed a.
Proof.
  unfold sample_store, store_well_formed; intros H.
  assert (E1 : std_buffers a = std_buffers b) by congruence.
  assert (E2 : weak_buffers a = weak_buffers b) by congruence.
  assert (E3 : active_series a = active_series b) by congruence.
  assert (E4 : last_mode_was_weak a = last_mode_was_weak b) by congruence.
  rewrite E1, E2, E3, E4; auto.
Qed.

Lemma acquire_well_formed (port : Port) (a : App) :
  store_well_formed a -> store_well_formed (snd (acquire port a)).
Proof.
  intros Hwf.
  destruct (acquire port a) as [o a'] eqn:Ea; cbn [snd].
  destruct (returned o) eqn:Er.
  - destruct o; try discriminate.
    destruct (acquire_stored_effect _ _ Ea)
      as (data & r & _ & Hdec & Hact & Hlast & _ & _ & _ & Hb).
    pose proof (@reading_well_formed data r Hdec) as Hr.
    destruct Hwf as (Hs & Hw & _).
    unfold store_well_formed; rewrite Hact, Hlast.
    destruct (requests_weak a); destruct Hb as [-> ->]; auto.
  - apply (@store_well_formed_store _ a); [|assumption].
    pose proof (@acquire_failed_store port a) as H.
    rewrite Ea in H; cbn [fst snd] in H; apply H; exact Er.
Qed.
End StoreInvariant.

Section Separation.

Lemma on_key_press_keeps_store (k : key_action) (a : App) :
  acquisition_state (on_key_press k a) = acquisition_state a
  /\ serial (on_key_press k a) = serial a.
Proof.
  unfold on_key_press, View.fit_to_window, View.reset_view.
  destruct (settings_active a).
  - destruct k as [| | | | | | |[|]]; split; reflexivity.
  - destruct k; try (split; reflexivity);
      destruct (auto_scale a); cbn [negb]; try (split; reflexivity).
    destruct (View.py_not (ch1 a) || View.py_not (ch2 a))%bool;
      split; reflexivity.
Qed.

Lemma on_mouse_scroll_keeps_store (s : Q) (a : App) :
  acquisition_state (View.on_mouse_scroll s a) = acquisition_state a
  /\ serial (View.on_mouse_scroll s a) = serial a
  /\ excitation_mode (View.on_mouse_scroll s a) = excitation_mode a.
Proof.
  unfold View.on_mouse_scroll.
  destruct (settings_active a); [repeat split|].
  destruct (auto_scale a); cbn [negb]; [repeat split|].
  destruct (View.gt s 0); repeat split.
Qed.

Lemma fit_to_window_keeps_store (a : App) :
  acquisition_state (View.fit_to_window a) = acquisition_state a
  /\ serial (View.fit_to_window a) = serial a
  /\ excitation_mode (View.fit_to_window a) = excitation_mode a.
Proof.
  unfold View.fit_to_window.
  destruct (View.py_not (ch1 a) || View.py_not (ch2 a))%bool; repeat split.
Qed.

Lemma update_keeps_view (port : Port) (a : App) :
  view_state (update port a) = view_state a
  /\ excitation_mode (update port a) = excitation_mode a
  /\ sample_store (update port a) = sample_store (snd (acquire port a))
     \/ update port a = a.
Proof.
  unfold update.
  destruct (negb (paused a) && negb (settings_active a))%bool;
    [left | right; reflexivity].
  pose proof (acquire_keeps_controls port a) as Hc.
  destruct (acquire port a) as [o a']; cbn [snd] in *.
  unfold controls in Hc.
  injection Hc as _ _ _ _ Hau Hm Hz Hx Hy _.
  destruct (returned o); unfold view_state; cbn;
    rewrite ?Hau, ?Hm, ?Hz, ?Hx, ?Hy; repeat split.
Qed.
End Separation.

(** X5. Acquisition and view are separate.  A tick or a call of [acquire]
    never changes zoom, pan, the auto-scale flag or the excitation mode; a
    key press, a scroll step, a fit or a reset never changes a stored
    buffer, the active series, the last-variant flag, the alternation
    toggle or the frame counter. *)
Theorem events_respect_separation (e : event) (a : App) :
  match e with
  | Ev_tick _ | Ev_acquire _ =>
      view_state (handle e a) = view_state a
      /\ excitation_mode (handle e a) = excitation_mode a
  | Ev_key _ | Ev_scroll _ | Ev_fit | Ev_reset =>
      acquisition_state (handle e a) = acquisition_state a
  | Ev_link _ =>
      acquisition_state (handle e a) = acquisition_state a
      /\ view_state (handle e a) = view_state a
  end.
Proof.
  destruct e as [port|port|k|s| | |s]; cbn [handle].
  - destruct (update_keeps_view port a) as [(H1 & H2 & _) | ->];
      split; auto.
  - pose proof (acquire_keeps_controls port a) as Hc.
    unfold controls in Hc; unfold view_state.
    injection Hc as _ _ _ _ Hau Hm Hz Hx Hy _.
    rewrite Hau, Hm, Hz, Hx, Hy; split; reflexivity.
  - apply on_key_press_keeps_store.
  - apply on_mouse_scroll_keeps_store.
  - apply fit_to_window_keeps_store.
  - reflexivity.
  - split; reflexivity.
Qed.

Section ReachableStore.

Lemma acquisition_state_store (a b : App) :
  acquisition_state a = acquisition_state b ->
  sample_store a = sample_store b.
Proof. unfold acquisition_state; congruence. Qed.

Lemma handle_well_formed (e : event) (a : App) :
  store_well_formed a -> store_well_formed (handle e a).
Proof.
  intros H; destruct e as [port|port|k|s| | |s]; cbn [handle].
  - destruct (update_keeps_view port a) as [(_ & _ & Hs) | ->];
      [|exact H].
    apply (@store_well_formed_store _ (snd (acquire port a)) Hs).
    apply acquire_well_formed, H.
  - apply acquire_well_formed, H.
  - apply (@store_well_formed_store _ a); [|exact H].
    apply acquisition_state_store, on_key_press_keeps_store.
  - apply (@store_well_formed_store _ a); [|exact H].
    apply acquisition_state_store, on_mouse_scroll_keeps_store.
  - apply (@store_well_formed_store _ a); [|exact H].
    apply acquisition_state_store, fit_to_window_keeps_store.
  - exact H.
  - exact H.
Qed.

Lemma handle_mode (e : event) (a : App) :
  0 <= excitation_mode a <= 2 -> 0 <= excitation_mode (handle e a) <= 2.
Proof.
  intros H; destruct e as [port|port|k|s| | |s]; cbn [handle].
  - destruct (update_keeps_view port a) as [(_ & -> & _) | ->]; exact H.
  - rewrite acquire_keeps_mode; exact H.
  - unfold on_key_press, View.fit_to_window, View.reset_view.
    destruct (settings_active a).
    + destruct k as [| | | | | | |[|]]; exact H.
    + destruct k; try exact H;
        try (destruct (auto_scale a); cbn [negb]; try exact H;
             destruct (View.py_not (ch1 a) || View.py_not (ch2 a))%bool;
             exact H).
      cbn; pose proof (Z.mod_pos_bound (excitation_mode a + 1) 3); lia.
  - destruct (on_mouse_scroll_keeps_store s a) as (_ & _ & ->); exact H.
  - destruct (fit_to_window_keeps_store a) as (_ & _ & ->); exact H.
  - exact H.
  - exact H.
Qed.
End ReachableStore.

(** X6. In every state the application can reach, each variant's five
    buffers are all empty or all 336 long, every stored current is the
    drive voltage minus the channel voltage, and the active series is the
    buffer set of the variant stored last. *)
Theorem reachable_store_well_formed (s : option Serial) (es : list event) :
  store_well_formed (run es (init s)).
Proof.
  unfold run.
  assert (H : store_well_formed (init s)).
  { repeat split; auto; cbn in *; lia. }
  revert H; generalize (init s).
  induction es as [|e es IH]; intros a H; cbn [fold_left]; [exact H|].
  apply IH, handle_well_formed, H.
Qed.

(** X7. The excitation mode is 0, 1 or 2 in every reachable state, and with
    the settings window closed three presses of SPACE bring it back. *)
Theorem mode_cycles_through_three (s : option Serial) (es : list event) :
  let a := run es (init s) in
  0 <= excitation_mode a <= 2
  /\ (settings_active a = false ->
      excitation_mode (run [Ev_key Key_space] a)
      = (excitation_mode a + 1) mod 3
      /\ excitation_mode
           (run [Ev_key Key_space; Ev_key Key_space; Ev_key Key_space] a)
         = excitation_mode a).
Proof.
  cbv zeta.
  assert (H : 0 <= excitation_mode (run es (init s)) <= 2).
  { unfold run.
    assert (H : 0 <= excitation_mode (init s) <= 2) by (cbn; lia).
    revert H; generalize (init s).
    induction es as [|e es IH]; intros a H; cbn [fold_left]; [exact H|].
    apply IH, handle_mode, H. }
  split; [exact H|].
  intros Hs; cbn [run fold_left handle].
  assert (Step : forall b, settings_active b = false ->
            settings_active (on_key_press Key_space b) = false
            /\ excitation_mode (on_key_press Key_space b)
               = (excitation_mode b + 1) mod 3).
  { intros b Hb; unfold on_key_press; rewrite Hb; cbn; auto. }
  destruct (Step _ Hs) as [S1 M1].
  destruct (Step _ S1) as [S2 M2].
  destruct (Step _ S2) as [_ M3].
  split; [exact M1|].
  rewrite M3, M2, M1.
  assert (E : excitation_mode (run es (init s)) = 0
              \/ excitation_mode (run es (init s)) = 1
              \/ excitation_mode (run es (init s)) = 2) by lia.
  destruct E as [-> | [-> | ->]]; reflexivity.
Qed.

Lemma mode_cycles_through_three_witness :
  let a := run [Ev_key Key_space; Ev_tick ramp_port] (init open_serial) in
  0 <= excitation_mode a <= 2
  /\ (settings_active a = false ->
      excitation_mode (run [Ev_key Key_space] a)
      = (excitation_mode a + 1) mod 3
      /\ excitation_mode
           (run [Ev_key Key_space; Ev_key Key_space; Ev_key Key_space] a)
         = excitation_mode a).
Proof.
  exact (mode_cycles_through_three open_serial
           [Ev_key Key_space; Ev_tick ramp_port]).
Defined.

(** Two incompatible accounts of one call. *)
Ltac exit_contradiction :=
  intros; exfalso;
  repeat match goal with
         | X : _ /\ _ |- _ => destruct X
         | X : exists _, _ |- _ => destruct X
         end;
  first
    [ congruence
    | match goal with
      | A : ?r = Some ?d1, B : ?r = Some ?d2 |- _ =>
          rewrite A in B; injection B as <-; lia
      end ].

(** X1. Which exit a call of [acquire] takes is decided by the connection
    and by what the device delivered: it returns through the first check
    exactly when no port is open, through the exception handler exactly
    when serial I/O raises, through the length check exactly when fewer
    than 2016 bytes arrived before the deadline, and it stores exactly when
    2016 bytes arrived.  The word-count check and an exception while
    parsing are never the way out. *)
Theorem acquire_exit_by_cause (port : Port) (self : App) :
  let o := fst (acquire port self) in
  let received := request_frame port (command_of self) in
  (o = Not_connected <-> serial_is_open self = false)
  /\ (o = Transport_raised
      <-> serial_is_open self = true /\ received = None)
  /\ (o = Frame_length
      <-> serial_is_open self = true
          /\ exists data, received = Some data /\ (length data < 2016)%nat)
  /\ (o = Stored
      <-> serial_is_open self = true
          /\ exists data, received = Some data /\ length data = 2016%nat)
  /\ o <> Word_count /\ o <> Parse_raised.
Proof.
  cbv zeta; unfold command_of.
  pose proof (acquire_outcome port self) as H; cbv zeta in H.
  destruct (fst (acquire port self));
    (split; [|split; [|split; [|split; [|split]]]]);
    try discriminate; try contradiction;
    (split;
     [ first [ discriminate | intros _; exact H ]
     | first [ intros _; reflexivity | exit_contradiction ] ]).
Qed.

Section PlotFacts.
Import Plot.
Local Open Scope Q_scope.


End PlotFacts.




Section PixelFacts.
Import Plot.
Local Open Scope Q_scope.






End PixelFacts.




Section DrawFacts.
Import Plot.
Local Open Scope Q_scope.

End DrawFacts.



Section WidgetFacts.
Import Widgets.
Import PrimFloat.

Lemma in_byte_range (c : Z) : 0 <= c <= 255 -> In c (map Z.of_nat (seq 0 256)).
Proof.
  intros H; apply in_map_iff; exists (Z.to_nat c); split; [lia|].
  apply in_seq; lia.
Qed.

Lemma channel_round_trip (c : Z) :
  0 <= c <= 255 ->
  py_int (FloatView.of_int c / 255 * 255)%float = Some c.
Proof.
  intros H.
  assert (All : forallb
            (fun c => match py_int (FloatView.of_int c / 255 * 255)%float
                      with
                      | Some c' => c' =? c
                      | None => false
                      end) (map Z.of_nat (seq 0 256)) = true)
    by (vm_compute; reflexivity).
  rewrite forallb_forall in All.
  specialize (All c (@in_byte_range c H)).
  destruct (py_int _) as [c'|]; [|discriminate].
  apply Z.eqb_eq in All; congruence.
Qed.
End WidgetFacts.

(** X11. Colours survive the trip through pyglet's unit range.  For every
    RGB colour with components 0..255, [_color_to_255(_normalize_color(c))]
    is [c] again, in binary64 arithmetic: the colours drawn are exactly the
    configured ones. *)
Theorem color_round_trip (r g b : Z) (rest : list Z) :
  0 <= r <= 255 -> 0 <= g <= 255 -> 0 <= b <= 255 ->
  exists normalized,
    Widgets._normalize_color (r :: g :: b :: rest) = Some normalized
    /\ Widgets._color_to_255 normalized = Some (r, g, b).
Proof.
  intros Hr Hg Hb; eexists; split; [reflexivity|].
  unfold Widgets._color_to_255.
  rewrite (@channel_round_trip r Hr), (@channel_round_trip g Hg),
    (@channel_round_trip b Hb).
  reflexivity.
Qed.

Lemma color_round_trip_witness :
  exists normalized,
    Widgets._normalize_color [50; 150; 255] = Some normalized
    /\ Widgets._color_to_255 normalized = Some (50, 150, 255).
Proof.
  apply (color_round_trip 50 150 255 []); lia.
Defined.

Section SliderFacts.
Import Widgets.
Import PrimFloat.

Lemma slider_table (r : Z) :
  0 <= r <= 250 ->
  py_int (FloatView.of_int r / FloatView.of_int 250 * 255)%float
  = Some (r * 255 / 250).
Proof.
  intros H.
  assert (All : forallb
            (fun r => match py_int (FloatView.of_int r
                                    / FloatView.of_int 250 * 255)%float
                      with
                      | Some v => v =? r * 255 / 250
                      | None => false
                      end) (map Z.of_nat (seq 0 256)) = true)
    by (vm_compute; reflexivity).
  rewrite forallb_forall in All.
  specialize (All r (@in_byte_range r ltac:(lia))).
  destruct (py_int _) as [v|]; [|discriminate].
  apply Z.eqb_eq in All; congruence.
Qed.

Lemma list_assign_spec {A : Type} (lst : list A) (index : nat) (value : A) :
  (index < length lst)%nat ->
  exists lst',
    list_assign lst index value = Some lst'
    /\ length lst' = length lst
    /\ forall i d, nth i lst' d = if (i =? index)%nat then value
                                  else nth i lst d.
Proof.
  revert index; induction lst as [|h t IH]; intros index H;
    [cbn in H; lia|].
  destruct index as [|index].
  - eexists; split; [reflexivity|]; split; [reflexivity|].
    intros [|i] d; reflexivity.
  - destruct (IH index) as (t' & E & L & N); [cbn in H; lia|].
    cbn [list_assign]; rewrite E.
    eexists; split; [reflexivity|]; split; [cbn; lia|].
    intros [|i] d; [reflexivity|cbn [nth]; apply N].
Qed.
End SliderFacts.

(** X12. The colour slider.  For every integer mouse position,
    [_update_slider] stores [floor(255 * d / 250)] at the chosen index,
    where [d] is the mouse offset from the slider start clamped to
    [0, 250]; the stored value lies in 0..255, is 0 at or left of the
    start and 255 at or right of the end, never decreases as the mouse
    moves right, and the other components keep their values. *)
Theorem update_slider_value (x mouse_x : Z) (color : list Z) (index : nat) :
  (index < length color)%nat ->
  let d := Z.max 0 (Z.min (mouse_x - (x + 100)) 250) in
  exists color',
    Widgets._update_slider x color index mouse_x = Some color'
    /\ length color' = length color
    /\ nth index color' 0 = 255 * d / 250
    /\ 0 <= nth index color' 0 <= 255
    /\ (mouse_x <= x + 100 -> nth index color' 0 = 0)
    /\ (x + 350 <= mouse_x -> nth index color' 0 = 255)
    /\ (forall i, i <> index -> nth i color' 0 = nth i color 0)
    /\ forall mouse_x', mouse_x <= mouse_x' ->
         exists color'',
           Widgets._update_slider x color index mouse_x' = Some color''
           /\ nth index color' 0 <= nth index color'' 0.
Proof.
  intros Hi; cbv zeta.
  assert (V : forall m,
             Widgets.slider_value x m
             = Some (255 * Z.max 0 (Z.min (m - (x + 100)) 250) / 250)).
  { intros m; unfold Widgets.slider_value, Widgets.slider_width; cbv zeta.
    rewrite slider_table by lia.
    f_equal; f_equal; lia. }
  assert (U : forall m, exists c,
             Widgets._update_slider x color index m = Some c
             /\ length c = length color
             /\ forall i d, nth i c d
                  = if (i =? index)%nat
                    then 255 * Z.max 0 (Z.min (m - (x + 100)) 250) / 250
                    else nth i color d).
  { intros m; unfold Widgets._update_slider; rewrite V.
    apply list_assign_spec, Hi. }
  destruct (U mouse_x) as (c & E & L & N).
  exists c; split; [exact E|]; split; [exact L|].
  assert (Nidx : nth index c 0
                 = 255 * Z.max 0 (Z.min (mouse_x - (x + 100)) 250) / 250)
    by (rewrite N, Nat.eqb_refl; reflexivity).
  rewrite Nidx.
  split; [reflexivity|].
  split.
  { split.
    - apply Z.div_pos; lia.
    - apply Z.div_le_upper_bound; lia. }
  split.
  { intros H; replace (Z.max 0 (Z.min (mouse_x - (x + 100)) 250)) with 0
      by lia; reflexivity. }
  split.
  { intros H; replace (Z.max 0 (Z.min (mouse_x - (x + 100)) 250)) with 250
      by lia; reflexivity. }
  split.
  { intros i Hne; rewrite N.
    destruct (Nat.eqb_spec i index); [contradiction | reflexivity]. }
  intros m Hm.
  destruct (U m) as (c2 & E2 & _ & N2).
  exists c2; split; [exact E2|].
  rewrite N2, Nat.eqb_refl.
  apply Z.div_le_mono; lia.
Qed.

Lemma update_slider_value_witness :
  let d := Z.max 0 (Z.min (517 - (340 + 100)) 250) in
  exists color',
    Widgets._update_slider 340 [10; 20; 30] 1 517 = Some color'
    /\ length color' = length [10; 20; 30]
    /\ nth 1 color' 0 = 255 * d / 250
    /\ 0 <= nth 1 color' 0 <= 255
    /\ (517 <= 340 + 100 -> nth 1 color' 0 = 0)
    /\ (340 + 350 <= 517 -> nth 1 color' 0 = 255)
    /\ (forall i, i <> 1%nat -> nth i color' 0 = nth i [10; 20; 30] 0)
    /\ forall mouse_x', 517 <= mouse_x' ->
         exists color'',
           Widgets._update_slider 340 [10; 20; 30] 1 mouse_x' = Some color''
           /\ nth 1 color' 0 <= nth 1 color'' 0.
Proof.
  apply (update_slider_value 340 517 [10; 20; 30] 1); cbn; lia.
Defined.

Section ConfigFacts.
Import Config.

Lemma dict_get_set_same (k : string) (v : json) (d : dict) :
  dict_get k (dict_set k v d) = Some v.
Proof.
  induction d as [|[k' v'] d IH]; cbn [dict_set dict_get].
  - rewrite String.eqb_refl; reflexivity.
  - destruct (String.eqb k k') eqn:E; cbn [dict_get]; rewrite E; auto.
Qed.

Lemma dict_get_set_other (k k' : string) (v : json) (d : dict) :
  k' <> k -> dict_get k' (dict_set k v d) = dict_get k' d.
Proof.
  intros Hne; induction d as [|[k0 v0] d IH]; cbn [dict_set dict_get].
  - destruct (String.eqb_spec k' k); [contradiction | reflexivity].
  - destruct (String.eqb_spec k k0) as [->|N]; cbn [dict_get].
    + destruct (String.eqb_spec k' k0); [contradiction | reflexivity].
    + destruct (String.eqb k' k0); [reflexivity | exact IH].
Qed.

Lemma dict_get_none (k : string) (d : dict) :
  dict_get k d = None <-> ~ In k (map fst d).
Proof.
  induction d as [|[k' v'] d IH]; cbn [dict_get map fst In].
  - tauto.
  - destruct (String.eqb_spec k k') as [->|N].
    + split; [discriminate | intros H; exfalso; apply H; left; reflexivity].
    + rewrite IH; split; [intros H [E|E]; [congruence | tauto] | tauto].
Qed.

Lemma deep_update_nil (base : dict) : _deep_update base [] = base.
Proof. reflexivity. Qed.

(** One turn of the loop of [_deep_update]. *)
Lemma deep_update_cons (base : dict) (k : string) (v : json) (rest : dict) :
  _deep_update base ((k, v) :: rest)
  = _deep_update
      match dict_get k base, v with
      | Some (JDict sub), JDict u => dict_set k (JDict (_deep_update sub u)) base
      | _, _ => dict_set k v base
      end rest.
Proof.
  unfold _deep_update; cbn [deep_update_value].
  destruct (dict_get k base) as [[| | | | | |sub]|]; try reflexivity.
  destruct v; reflexivity.
Qed.

(** The equations of [set]. *)
Lemma set_last (value : json) (k : string) (d : dict) :
  set value [k] (JDict d) = Some (JDict (dict_set k value d)).
Proof. reflexivity. Qed.

Lemma set_step (value : json) (k k2 : string) (ks : list string) (d : dict) :
  set value (k :: k2 :: ks) (JDict d)
  = match set value (k2 :: ks)
            match dict_get k d with
            | Some v => v
            | None => JDict []
            end
    with
    | Some sub' => Some (JDict (dict_set k sub' d))
    | None => None
    end.
Proof. reflexivity. Qed.

Lemma set_raises (value : json) (keys : list string) (config : json) :
  keys = [] \/ (forall d, config <> JDict d) ->
  set value keys config = None.
Proof.
  intros [-> | H].
  - destruct config; reflexivity.
  - destruct config; try (destruct keys; reflexivity).
    exfalso; eapply H; reflexivity.
Qed.

Lemma set_inversion (value : json) (keys : list string) (config c' : json) :
  set value keys config = Some c' ->
  exists d k keys' v,
    config = JDict d /\ keys = k :: keys'
    /\ c' = JDict (dict_set k v d)
    /\ match keys' with
       | [] => v = value
       | _ :: _ =>
           set value keys'
             match dict_get k d with
             | Some v0 => v0
             | None => JDict []
             end = Some v
       end.
Proof.
  intros H.
  destruct config as [| | | | | |d];
    try (rewrite set_raises in H;
         [discriminate | right; intros d; discriminate]).
  destruct keys as [|k [|k2 ks]].
  - discriminate.
  - rewrite set_last in H; injection H as <-.
    exists d, k, [], value; auto.
  - rewrite set_step in H.
    destruct (set value (k2 :: ks) _) as [sub'|] eqn:E; [|discriminate].
    injection H as <-.
    exists d, k, (k2 :: ks), sub'; auto.
Qed.
End ConfigFacts.

(** X13. A value stored with [set] is what [get] returns for the same keys:
    whenever [set(value, k1, ..., kn)] completes, [get(k1, ..., kn)]
    yields [value] (Python's [None] when [value] is [None]). *)
Theorem get_after_set (value : Config.json) (keys : list Config.string)
  (config config' : Config.json) :
  Config.set value keys config = Some config' ->
  Config.get config' keys = Some value.
Proof.
  revert config config'; induction keys as [|k keys IH];
    intros config config' H;
    destruct (@set_inversion _ _ _ _ H) as (d & k0 & keys' & v & -> & Ek & -> & Hv);
    [discriminate|].
  injection Ek as <- <-.
  cbn [Config.get]; rewrite dict_get_set_same.
  destruct keys as [|k2 ks].
  - subst v; destruct value; reflexivity.
  - destruct (@set_inversion _ _ _ _ Hv) as (d' & k1 & ks1 & v' & _ & _ & -> & _).
    apply (IH _ _ Hv).
Qed.

(** X14. [set] under one top-level key leaves every other top-level entry as
    it was: [get] through any other first key gives the same result before
    and after. *)
Theorem set_keeps_other_entries (value : Config.json) (k k' : Config.string)
  (keys path : list Config.string) (config config' : Config.json) :
  Config.set value (k :: keys) config = Some config' ->
  k' <> k ->
  Config.get config' (k' :: path) = Config.get config (k' :: path).
Proof.
  intros H Hne.
  destruct (@set_inversion _ _ _ _ H) as (d & k0 & keys' & v & -> & Ek & -> & _).
  injection Ek as <- _.
  cbn [Config.get]; rewrite dict_get_set_other by exact Hne; reflexivity.
Qed.

(** X15. What [_deep_update] leaves under each key.  For an update without
    repeated keys: a key the update does not mention keeps its base value
    (defaults survive); a key whose base and update values are both
    dictionaries holds their recursive merge; any other key of the update
    holds the update's value, whether or not the base knew the key. *)
Theorem deep_update_lookup (k : Config.string) (update : Config.dict) :
  NoDup (map fst update) ->
  forall base : Config.dict,
    Config.dict_get k (Config._deep_update base update)
    = match Config.dict_get k update with
      | None => Config.dict_get k base
      | Some v =>
          match Config.dict_get k base, v with
          | Some (Config.JDict sub), Config.JDict u =>
              Some (Config.JDict (Config._deep_update sub u))
          | _, _ => Some v
          end
      end.
Proof.
  induction update as [|[k0 v0] rest IH]; intros Hnd base.
  - reflexivity.
  - cbn [map fst] in Hnd; apply NoDup_cons_iff in Hnd as [Hk0 Hnd].
    rewrite deep_update_cons, (IH Hnd).
    cbn [Config.dict_get].
    destruct (String.eqb_spec k k0) as [->|Hne].
    + apply dict_get_none in Hk0; rewrite Hk0.
      destruct (Config.dict_get k0 base) as [[| | | | | |sub]|];
        try (rewrite dict_get_set_same; reflexivity).
      destruct v0; rewrite dict_get_set_same; reflexivity.
    + set (base1 := match Config.dict_get k0 base, v0 with
                      | Some (Config.JDict sub), Config.JDict u =>
                          Config.dict_set k0
                            (Config.JDict (Config._deep_update sub u)) base
                      | _, _ => Config.dict_set k0 v0 base
                      end).
      assert (Hb : Config.dict_get k base1 = Config.dict_get k base).
      { unfold base1.
        destruct (Config.dict_get k0 base) as [[| | | | | |sub]|];
          try (apply dict_get_set_other; exact Hne).
        destruct v0; apply dict_get_set_other; exact Hne. }
      rewrite Hb; reflexivity.
Qed.

Section ConfigWitnesses.
Import String.
Local Open Scope string_scope.

Lemma get_after_set_witness :
  Config.get
    (Config.JDict
       (Config.dict_set "palette"
          (Config.JDict [("accent", Config.JInt 7)])
          Config.DEFAULT_CONFIG))
    ["palette"; "accent"]
  = Some (Config.JInt 7).
Proof.
  apply (get_after_set (Config.JInt 7) ["palette"; "accent"]
           (Config.JDict Config.DEFAULT_CONFIG)).
  reflexivity.
Defined.

Lemma set_keeps_other_entries_witness :
  Config.get
    (Config.JDict
       (Config.dict_set "serial_port" (Config.JStr "COM9")
          Config.DEFAULT_CONFIG))
    ["keybinds"; "pause"]
  = Config.get (Config.JDict Config.DEFAULT_CONFIG) ["keybinds"; "pause"].
Proof.
  apply (set_keeps_other_entries (Config.JStr "COM9") "serial_port"
           "keybinds" [] ["pause"] (Config.JDict Config.DEFAULT_CONFIG)).
  - reflexivity.
  - discriminate.
Defined.

Lemma deep_update_lookup_witness :
  Config.dict_get "colors"
    (Config._deep_update Config.DEFAULT_CONFIG Config.sample_saved)
  = match Config.dict_get "colors" Config.sample_saved with
    | None => Config.dict_get "colors" Config.DEFAULT_CONFIG
    | Some v =>
        match Config.dict_get "colors" Config.DEFAULT_CONFIG, v with
        | Some (Config.JDict sub), Config.JDict u =>
            Some (Config.JDict (Config._deep_update sub u))
        | _, _ => Some v
        end
    end.
Proof.
  apply (deep_update_lookup "colors" Config.sample_saved).
  repeat constructor; cbn; intuition discriminate.
Defined.
End ConfigWitnesses.

Section DetectFacts.
Import Detect.

Lemma answers_true (c : Candidate) :
  answers c = true ->
  exists port data,
    opened c = Some port /\ close_ok c = true
    /\ request_frame port cmd_T = Some data
    /\ length data = 2016%nat.
Proof.
  unfold answers.
  destruct (opened c) as [port|]; [|discriminate].
  destruct (request_frame port cmd_T) as [data|] eqn:Er; [|discriminate].
  intros H; apply andb_prop in H as [H1 H2].
  apply Nat.eqb_eq in H2.
  exists port, data; repeat split; assumption.
Qed.
End DetectFacts.

(** X16. [auto_detect_port] returns the first enumerated port that opens,
    answers the 'T' command with a complete frame of 2016 bytes and
    closes; ports that fail at any step are skipped, and the result is
    [None] exactly when no port qualifies. *)
Theorem auto_detect_first_answering (ports : list Detect.Candidate) :
  match Detect.auto_detect_port ports with
  | Some name =>
      exists before c after port data,
        ports = before ++ c :: after
        /\ Detect.device c = name
        /\ Forall (fun c' => Detect.answers c' = false) before
        /\ Detect.opened c = Some port
        /\ Detect.close_ok c = true
        /\ request_frame port cmd_T = Some data
        /\ length data = 2016%nat
  | None => Forall (fun c => Detect.answers c = false) ports
  end.
Proof.
  induction ports as [|c ports IH]; cbn [Detect.auto_detect_port].
  - constructor.
  - destruct (Detect.answers c) eqn:E.
    + destruct (answers_true c E) as (port & data & Ho & Hc & Hr & Hl).
      exists [], c, ports, port, data; repeat split; auto.
    + destruct (Detect.auto_detect_port ports) as [name|].
      * destruct IH as (before & c' & after & port & data & -> & Hd & Hb
                        & Ho & Hc & Hr & Hl).
        exists (c :: before), c', after, port, data.
        repeat split; auto.
      * constructor; assumption.
Qed.

Section InputFacts.
Variable char : Type.

Lemma removelast_snoc (l : list char) (c : char) :
  removelast (l ++ [c]) = l.
Proof. apply removelast_last. Qed.

Lemma backspace_after_char (l : list char) (c : char) :
  Input.handle_backspace (Input.mkInputBox (l ++ [c]) true)
  = Input.mkInputBox l true.
Proof.
  unfold Input.handle_backspace; cbn [Input.active Input.text].
  destruct (l ++ [c]) eqn:E; [destruct l; discriminate|].
  rewrite <- E, removelast_last; reflexivity.
Qed.
End InputFacts.

(** X17. Text entry in an [InputBox].  On an active box, typing a string and
    then pressing backspace once per typed character restores the text;
    on an inactive box typing and backspace change nothing; backspace on
    an empty text changes nothing. *)
Theorem typing_then_backspaces (char : Type) (typed : list char)
  (box : Input.InputBox char) :
  (Input.active box = true ->
   Input.backspaces (length typed) (Input.handle_text typed box)
   = box)
  /\ (Input.active box = false ->
      Input.handle_text typed box = box
      /\ Input.handle_backspace box = box)
  /\ (Input.text box = [] -> Input.handle_backspace box = box).
Proof.
  destruct box as [txt act]; cbn [Input.active Input.text].
  split; [|split].
  - intros ->; unfold Input.handle_text; cbn [Input.active Input.text].
    induction typed as [|c typed IH] using rev_ind.
    + rewrite app_nil_r; reflexivity.
    + rewrite length_app, Nat.add_comm; cbn [length Nat.add].
      unfold Input.backspaces in *.
      rewrite Nat.iter_succ_r, app_assoc, backspace_after_char.
      exact IH.
  - intros ->; split; reflexivity.
  - intros ->; unfold Input.handle_backspace; cbn.
    destruct act; reflexivity.
Qed.

Lemma typing_then_backspaces_witness :
  Input.backspaces (length [x31; x30; x38; x30])
    (Input.handle_text [x31; x30; x38; x30]
       (Input.mkInputBox [x39; x36] true))
  = Input.mkInputBox [x39; x36] true.
Proof.
  apply (proj1 (typing_then_backspaces byte [x31; x30; x38; x30]
                  (Input.mkInputBox [x39; x36] true))).
  reflexivity.
Defined.

Section MouseFacts.
Import Mouse.
Local Open Scope Q_scope.

End MouseFacts.


